(** * Hierarchical skill acquisition: the network modules

    A shallow embedding of [agent/hierarchical/modules.py]: the visual and
    instruction encoders, their fusion, the recurrent time encoder and the
    three policy heads, together with the tensor operations of the numeric
    backend that they call.

    Tensors are kept the way the backend stores a contiguous tensor: a shape
    and a flat, row-major list of elements.  An operation that the backend
    rejects returns [Raise] with the class of the Python exception.  The
    element type of a floating tensor is a parameter (class [Scalar]); the
    statements about the normalised exponential are made at the real numbers,
    an idealisation of floating point arithmetic. *)

From Stdlib Require Import String.
From Stdlib Require Import List Arith ZArith Lia Bool Permutation.
From Stdlib Require Import Reals Lra.
From Stdlib Require Import PrimFloat.
Import ListNotations.

Set Implicit Arguments.

(* ================================================================= *)
(** ** Exceptions, results and warnings *)

(** The Python exception classes that the modelled calls can raise.
    [RuntimeError] is what the backend raises on a shape or size mismatch. *)
Inductive exn : Type :=
| RuntimeError
| IndexError
| ValueError.

Inductive result (T : Type) : Type :=
| Ok (x : T)
| Raise (e : exn).

Arguments Ok {T} x.
Arguments Raise {T} e.

Definition bind {T U : Type} (c : result T) (k : T -> result U) : result U :=
  match c with
  | Ok x => k x
  | Raise e => Raise e
  end.

Declare Scope result_scope.
Delimit Scope result_scope with result.
Notation "x <- c ;; k" := (bind c (fun x => k))
  (at level 61, c at next level, right associativity) : result_scope.
Notation "' p <- c ;; k" := (bind c (fun p => k))
  (at level 61, p pattern, c at next level, right associativity) : result_scope.
Open Scope result_scope.

Fixpoint mapM {T U : Type} (f : T -> result U) (l : list T) : result (list U) :=
  match l with
  | [] => Ok []
  | x :: l' => y <- f x ;; ys <- mapM f l' ;; Ok (y :: ys)
  end.

(** A warning handed to [warnings.warn]: its category is [UserWarning], the
    default one. *)
Inductive warning : Type :=
| UserWarning (message : string).

(** The call [warnings.warn(message)] as a module makes it: the warning that
    is handed to the warning machinery of the interpreter.  Whether the
    caller then sees it is decided by the filters and the registry, see
    [warnings.warn] below. *)
Definition warnings_warn (message : string) : list warning :=
  [UserWarning message].

(* ================================================================= *)
(** ** Scalars *)

(** The arithmetic of the element type of a floating tensor. *)
Class Scalar (A : Type) : Type := {
  szero : A;
  sadd : A -> A -> A;
  smul : A -> A -> A
}.

(** The elementwise non-linearities, and the division of the normalised
    exponential. *)
Class Activation (A : Type) : Type := {
  srelu : A -> A;
  ssigmoid : A -> A;
  stanh : A -> A;
  sexp : A -> A;
  sdiv : A -> A -> A
}.

(** Addition is a commutative monoid. *)
Class ScalarLaws (A : Type) {SA : Scalar A} : Prop := {
  sadd_comm : forall x y : A, sadd x y = sadd y x;
  sadd_assoc : forall x y z : A, sadd (sadd x y) z = sadd x (sadd y z);
  sadd_zero_l : forall x : A, sadd szero x = x
}.

Arguments ScalarLaws A {SA}.

#[export] Instance Scalar_Z : Scalar Z :=
  {| szero := 0%Z; sadd := Z.add; smul := Z.mul |}.

#[export] Instance Scalar_R : Scalar R :=
  {| szero := 0%R; sadd := Rplus; smul := Rmult |}.

#[export] Instance Activation_R : Activation R :=
  {| srelu := fun x => Rmax 0 x;
     ssigmoid := fun x => (1 / (1 + exp (- x)))%R;
     stanh := tanh;
     sexp := exp;
     sdiv := Rdiv |}.

(* ================================================================= *)
(** ** Tensors *)

Record tensor (A : Type) : Type := Tensor {
  shape : list nat;
  data : list A
}.

Definition numel (s : list nat) : nat := fold_right Nat.mul 1 s.

(** The storage holds exactly the elements the shape announces. *)
Definition wf {A : Type} (t : tensor A) : Prop :=
  length (data t) = numel (shape t).

Fixpoint shape_eqb (s1 s2 : list nat) : bool :=
  match s1, s2 with
  | [], [] => true
  | n :: s1', m :: s2' => (n =? m) && shape_eqb s1' s2'
  | _, _ => false
  end.

(** [t.size()] and the indexing of the tuple it returns. *)
Definition size {A : Type} (t : tensor A) : list nat := shape t.

Definition getitem (s : list nat) (i : nat) : result nat :=
  match nth_error s i with
  | Some n => Ok n
  | None => Raise IndexError
  end.

(** [slice i n l] is the [i]-th block of [n] consecutive elements of [l];
    [rows n k l] are the first [k] such blocks. *)
Definition slice {A : Type} (i n : nat) (l : list A) : list A :=
  firstn n (skipn (i * n) l).

Definition rows {A : Type} (n k : nat) (l : list A) : list (list A) :=
  map (fun i => slice i n l) (seq 0 k).

(** A requested size of [view]: a number, or [-1] ([Infer]). *)
Inductive dim : Type :=
| D (n : nat)
| Infer.

Definition is_infer (d : dim) : bool :=
  match d with
  | D _ => false
  | Infer => true
  end.

Definition known (ds : list dim) : nat :=
  fold_right (fun d acc => match d with D n => n * acc | Infer => acc end) 1 ds.

Definition resolve (inferred : nat) (d : dim) : nat :=
  match d with
  | D n => n
  | Infer => inferred
  end.

(** [t.view(ds)]: the same storage under another shape.  The only check is
    on the number of elements. *)
Definition view {A : Type} (t : tensor A) (ds : list dim) : result (tensor A) :=
  let n := numel (shape t) in
  match length (filter is_infer ds) with
  | 0 =>
      if n =? known ds then Ok (Tensor (map (resolve 0) ds) (data t))
      else Raise RuntimeError
  | 1 =>
      let k := known ds in
      if k =? 0 then Raise RuntimeError
      else if n mod k =? 0 then Ok (Tensor (map (resolve (n / k)) ds) (data t))
      else Raise RuntimeError
  | _ => Raise RuntimeError
  end.

(** [t.unsqueeze(d)]: a new axis of size one at position [d]. *)
Definition unsqueeze {A : Type} (t : tensor A) (d : nat) : result (tensor A) :=
  if d <=? length (shape t)
  then Ok (Tensor (firstn d (shape t) ++ [1] ++ skipn d (shape t)) (data t))
  else Raise IndexError.

(** [t.squeeze(d)]: axis [d] is dropped when its size is one, and kept
    otherwise. *)
Definition squeeze {A : Type} (t : tensor A) (d : nat) : result (tensor A) :=
  match nth_error (shape t) d with
  | Some 1 => Ok (Tensor (firstn d (shape t) ++ skipn (S d) (shape t)) (data t))
  | Some _ => Ok t
  | None => Raise IndexError
  end.

(** Axis by axis, a size of the tensor is kept or, when it is one, repeated. *)
Fixpoint expandable (s tgt : list nat) : bool :=
  match s, tgt with
  | [], [] => true
  | n :: s', m :: tgt' => ((n =? m) || (n =? 1)) && expandable s' tgt'
  | _, _ => false
  end.

Fixpoint expand_data {A : Type} (s tgt : list nat) (d : list A) : list A :=
  match s, tgt with
  | n :: s', m :: tgt' =>
      if n =? m then flat_map (expand_data s' tgt') (rows (numel s') n d)
      else concat (repeat (expand_data s' tgt' d) m)
  | _, _ => d
  end.

(** [t.expand(sizes)]: sizes are aligned on the right, missing leading axes
    count as one. *)
Definition expand {A : Type} (t : tensor A) (sizes : list nat) : result (tensor A) :=
  if length sizes <? length (shape t) then Raise RuntimeError
  else
    let s := repeat 1 (length sizes - length (shape t)) ++ shape t in
    if expandable s sizes then Ok (Tensor sizes (expand_data s sizes (data t)))
    else Raise RuntimeError.

(** Elementwise sum and product of two vectors. *)
Definition vadd {A : Type} {SA : Scalar A} (x y : list A) : list A :=
  map (fun p => sadd (fst p) (snd p)) (combine x y).

Definition vmul {A : Type} {SA : Scalar A} (x y : list A) : list A :=
  map (fun p => smul (fst p) (snd p)) (combine x y).

Definition ssum {A : Type} {SA : Scalar A} (l : list A) : A :=
  fold_left sadd l szero.

(** The functions of the [torch] name space that the modules call. *)
Module torch.

Definition zeros {A : Type} {SA : Scalar A} (sizes : list nat) : tensor A :=
  Tensor sizes (repeat szero (numel sizes)).

(** [torch.arange(start, end, step)] for a non-negative range. *)
Definition arange (start stop step : nat) : result (list nat) :=
  if step =? 0 then Raise RuntimeError
  else Ok (map (fun i => start + i * step)
               (seq 0 ((stop - start + (step - 1)) / step))).

Definition last_size (s : list nat) : nat := last s 1.

(** [torch.cat(ts, -1)]: concatenation along the last axis.  The tensors
    must agree on every other axis. *)
Definition cat_last {A : Type} (ts : list (tensor A)) : result (tensor A) :=
  match ts with
  | [] => Raise RuntimeError
  | t0 :: _ =>
      let lead := removelast (shape t0) in
      if forallb (fun t => negb (length (shape t) =? 0)
                           && shape_eqb (removelast (shape t)) lead) ts
      then Ok (Tensor (lead ++ [list_sum (map (fun t => last_size (shape t)) ts)])
                      (flat_map (fun i =>
                         flat_map (fun t => slice i (last_size (shape t)) (data t)) ts)
                         (seq 0 (numel lead))))
      else Raise RuntimeError
  end.

End torch.

(** The functions of [torch.nn.functional]. *)
Module F.

Definition relu {A : Type} {AA : Activation A} (t : tensor A) : tensor A :=
  Tensor (shape t) (map srelu (data t)).

Definition softmax_row {A : Type} {SA : Scalar A} {AA : Activation A}
  (r : list A) : list A :=
  let e := map sexp r in
  map (fun x => sdiv x (ssum e)) e.

(** [F.softmax(t, dim=-1)]: the normalised exponential of every row along
    the last axis. *)
Definition softmax_last {A : Type} {SA : Scalar A} {AA : Activation A}
  (t : tensor A) : tensor A :=
  match rev (shape t) with
  | [] => Tensor [] (softmax_row (data t))
  | n :: lead =>
      Tensor (shape t)
             (flat_map softmax_row (rows n (numel (rev lead)) (data t)))
  end.

End F.

(* ================================================================= *)
(** ** The layers of [torch.nn] that the modules are built from *)

Section LinearMap.
Context {A : Type} {SA : Scalar A}.

Definition dot (w x : list A) : A :=
  fold_left (fun acc p => sadd acc (smul (fst p) (snd p))) (combine x w) szero.

(** [x A^T + b] for one input vector [x]: [w] holds the [n_out] rows of
    [A], each of [n_in] elements. *)
Definition linear_row (w b : list A) (n_in n_out : nat) (x : list A) : list A :=
  map (fun o => sadd (dot (slice o n_in w) x) (nth o b szero)) (seq 0 n_out).

End LinearMap.

(** [nn.Linear(in_features, out_features)]. *)
Module Linear.
Section Linear.
Context {A : Type} {SA : Scalar A}.

Record t : Type := {
  in_features : nat;
  out_features : nat;
  weight : tensor A;
  bias : tensor A
}.

Definition init (n_in n_out : nat) (w b : list A) : t :=
  {| in_features := n_in;
     out_features := n_out;
     weight := Tensor [n_out; n_in] w;
     bias := Tensor [n_out] b |}.

Definition apply_row (self : t) (x : list A) : list A :=
  linear_row (data (weight self)) (data (bias self))
             (in_features self) (out_features self) x.

(** The last axis of the input must have [in_features] elements; it is
    replaced by [out_features]. *)
Definition forward (self : t) (input : tensor A) : result (tensor A) :=
  match rev (shape input) with
  | [] => Raise RuntimeError
  | n :: lead =>
      if n =? in_features self
      then Ok (Tensor (rev lead ++ [out_features self])
                      (flat_map (apply_row self)
                                (rows n (numel (rev lead)) (data input))))
      else Raise RuntimeError
  end.

Definition parameters (self : t) : list (tensor A) := [weight self; bias self].

End Linear.
End Linear.

(** [nn.Conv2d(in_channels, out_channels, kernel_size, stride)], without
    padding or dilation. *)
Module Conv2d.
Section Conv2d.
Context {A : Type} {SA : Scalar A}.

Record t : Type := {
  in_channels : nat;
  out_channels : nat;
  kernel_size : nat;
  stride : nat;
  weight : tensor A;
  bias : tensor A
}.

Definition init (c_in c_out k s : nat) (w b : list A) : t :=
  {| in_channels := c_in;
     out_channels := c_out;
     kernel_size := k;
     stride := s;
     weight := Tensor [c_out; c_in; k; k] w;
     bias := Tensor [c_out] b |}.

Definition out_size (self : t) (n : nat) : nat :=
  (n - kernel_size self) / stride self + 1.

(** The output at channel [o], row [i], column [j] for one sample [x] of
    [in_channels * H * W] elements. *)
Definition conv_at (self : t) (H W : nat) (x : list A) (o i j : nat) : A :=
  let k := kernel_size self in
  fold_left (fun acc c =>
    fold_left (fun acc ki =>
      fold_left (fun acc kj =>
        sadd acc
          (smul (nth ((c * H + (i * stride self + ki)) * W
                      + (j * stride self + kj)) x szero)
                (nth (((o * in_channels self + c) * k + ki) * k + kj)
                     (data (weight self)) szero)))
        (seq 0 k) acc)
      (seq 0 k) acc)
    (seq 0 (in_channels self)) (nth o (data (bias self)) szero).

Definition conv_sample (self : t) (H W : nat) (x : list A) : list A :=
  flat_map (fun o =>
    flat_map (fun i =>
      map (fun j => conv_at self H W x o i j) (seq 0 (out_size self W)))
      (seq 0 (out_size self H)))
    (seq 0 (out_channels self)).

(** The input is [(N, in_channels, H, W)] with [H] and [W] at least the
    kernel size. *)
Definition forward (self : t) (input : tensor A) : result (tensor A) :=
  match shape input with
  | [N; C; H; W] =>
      if negb (C =? in_channels self) then Raise RuntimeError
      else if stride self =? 0 then Raise RuntimeError
      else if (H <? kernel_size self) || (W <? kernel_size self)
      then Raise RuntimeError
      else Ok (Tensor [N; out_channels self; out_size self H; out_size self W]
                      (flat_map (conv_sample self H W)
                                (rows (C * H * W) N (data input))))
  | _ => Raise RuntimeError
  end.

Definition parameters (self : t) : list (tensor A) := [weight self; bias self].

End Conv2d.
End Conv2d.

(** [nn.EmbeddingBag(num_embeddings, embedding_dim, mode="sum")]. *)
Module EmbeddingBag.
Section EmbeddingBag.
Context {A : Type} {SA : Scalar A}.

Record t : Type := {
  num_embeddings : nat;
  embedding_dim : nat;
  weight : tensor A
}.

Definition init (n d : nat) (w : list A) : t :=
  {| num_embeddings := n; embedding_dim := d; weight := Tensor [n; d] w |}.

(** The embedding of one token id; an id outside the table is rejected
    by the lookup, with the run-time error of the backend. *)
Definition embed (self : t) (z : Z) : result (list A) :=
  if ((0 <=? z)%Z && (z <? Z.of_nat (num_embeddings self))%Z)%bool
  then Ok (slice (Z.to_nat z) (embedding_dim self) (data (weight self)))
  else Raise RuntimeError.

(** The bags that a list of offsets cuts out of the flat list of ids: bag
    [i] runs from offset [i] to the next offset, the last one to the end. *)
Definition bags (indices : list Z) (offsets : list nat) : list (list Z) :=
  map (fun p => firstn (snd p - fst p) (skipn (fst p) indices))
      (combine offsets (tl offsets ++ [length indices])).

Definition bag_sum (self : t) (bag : list Z) : result (list A) :=
  fold_left (fun acc z => a <- acc ;; e <- embed self z ;; Ok (vadd a e))
            bag (Ok (repeat szero (embedding_dim self))).

Definition bag_sums (self : t) (indices : list Z) (offsets : list nat)
  : result (tensor A) :=
  sums <- mapM (bag_sum self) (bags indices offsets) ;;
  Ok (Tensor [length offsets; embedding_dim self] (concat sums)).

(** A two-dimensional input is one bag per row and takes no offsets: they
    are the arithmetic progression whose step is the row length.  A
    one-dimensional input needs the offsets. *)
Definition forward (self : t) (input : tensor Z) (offsets : option (tensor Z))
  : result (tensor A) :=
  match shape input with
  | [_; L] =>
      match offsets with
      | Some _ => Raise ValueError
      | None =>
          offs <- torch.arange 0 (numel (shape input)) L ;;
          bag_sums self (data input) offs
      end
  | [_] =>
      match offsets with
      | Some o => bag_sums self (data input) (map Z.to_nat (data o))
      | None => Raise ValueError
      end
  | _ => Raise ValueError
  end.

Definition parameters (self : t) : list (tensor A) := [weight self].

End EmbeddingBag.
End EmbeddingBag.

(** [nn.LSTM(input_size, hidden_size, batch_first)] with its single layer,
    as the release that the modules were written for (the one with
    [torch.autograd.Variable]) evaluates it: the shape of the given state
    pair [(h_0, c_0)] is not checked; the pair is taken apart layer by layer
    by indexing the first axis of [h_0] and of [c_0]; the cell reads the
    state of its layer by broadcasting it against the batch; and the
    sequence is walked step by step.  The zero tensors of shape
    [(batch_size, hidden_size)] that [TimeEncoder.forward] passes are
    therefore read as one zero vector, shared by all batch rows. *)
Module LSTM.
Section LSTM.
Context {A : Type} {SA : Scalar A} {AA : Activation A}.

Record t : Type := {
  input_size : nat;
  hidden_size : nat;
  batch_first : bool;
  weight_ih_l0 : tensor A;
  weight_hh_l0 : tensor A;
  bias_ih_l0 : tensor A;
  bias_hh_l0 : tensor A
}.

Definition init (n_in n_hid : nat) (bf : bool) (w_ih w_hh b_ih b_hh : list A) : t :=
  {| input_size := n_in;
     hidden_size := n_hid;
     batch_first := bf;
     weight_ih_l0 := Tensor [4 * n_hid; n_in] w_ih;
     weight_hh_l0 := Tensor [4 * n_hid; n_hid] w_hh;
     bias_ih_l0 := Tensor [4 * n_hid] b_ih;
     bias_hh_l0 := Tensor [4 * n_hid] b_hh |}.

(** [t[0]]: the first slice along the first axis. *)
Definition first_slice (x : tensor A) : result (tensor A) :=
  match shape x with
  | [] => Raise IndexError
  | n :: s => if n =? 0 then Raise IndexError
              else Ok (Tensor s (firstn (numel s) (data x)))
  end.

(** One step of the cell for one batch row; the gates are laid out as
    input, forget, cell, output. *)
Definition LSTMCell (self : t) (x : list A) (hc : list A * list A)
  : list A * list A :=
  let n := hidden_size self in
  let gates :=
    vadd (linear_row (data (weight_ih_l0 self)) (data (bias_ih_l0 self))
                     (input_size self) (4 * n) x)
         (linear_row (data (weight_hh_l0 self)) (data (bias_hh_l0 self))
                     n (4 * n) (fst hc)) in
  let ingate := map ssigmoid (slice 0 n gates) in
  let forgetgate := map ssigmoid (slice 1 n gates) in
  let cellgate := map stanh (slice 2 n gates) in
  let outgate := map ssigmoid (slice 3 n gates) in
  let cy := vadd (vmul forgetgate (snd hc)) (vmul ingate cellgate) in
  let hy := vmul outgate (map stanh cy) in
  (hy, cy).

(** The input vector of batch row [b] at step [s]. *)
Definition input_at (self : t) (B T : nat) (x : list A) (s b : nat) : list A :=
  if batch_first self then slice (b * T + s) (input_size self) x
  else slice (s * B + b) (input_size self) x.

(** One time step over the whole batch; the hidden states of the step are
    appended to the outputs. *)
Definition step (self : t) (B T : nat) (x : list A)
  (acc : list (list A * list A) * list (list (list A))) (s : nat)
  : list (list A * list A) * list (list (list A)) :=
  let st := map (fun p => LSTMCell self (input_at self B T x s (fst p)) (snd p))
                (combine (seq 0 B) (fst acc)) in
  (st, snd acc ++ [map fst st]).

Definition Recurrent (self : t) (B T : nat) (x : list A)
  (st0 : list (list A * list A))
  : list (list A * list A) * list (list (list A)) :=
  fold_left (step self B T x) (seq 0 T) (st0, []).

(** The outputs of all steps, laid out as the input is. *)
Definition gather_output (self : t) (B T : nat) (outs : list (list (list A)))
  : tensor A :=
  if batch_first self
  then Tensor [B; T; hidden_size self]
         (flat_map (fun b =>
            flat_map (fun s => nth b (nth s outs []) []) (seq 0 T)) (seq 0 B))
  else Tensor [T; B; hidden_size self] (concat (map (@concat A) outs)).

(** Returns [(output, (h_n, c_n))]; the final states have the layer axis
    in front. *)
Definition forward (self : t) (input : tensor A) (hx : tensor A * tensor A)
  : result (tensor A * (tensor A * tensor A)) :=
  match shape input with
  | [d0; d1; n] =>
      let B := if batch_first self then d0 else d1 in
      let T := if batch_first self then d1 else d0 in
      if negb (n =? input_size self) then Raise RuntimeError
      else if T =? 0 then Raise RuntimeError
      else
        h0 <- first_slice (fst hx) ;;
        c0 <- first_slice (snd hx) ;;
        h0 <- expand h0 [B; hidden_size self] ;;
        c0 <- expand c0 [B; hidden_size self] ;;
        let st0 := combine (rows (hidden_size self) B (data h0))
                           (rows (hidden_size self) B (data c0)) in
        let r := Recurrent self B T (data input) st0 in
        Ok (gather_output self B T (snd r),
            (Tensor [1; B; hidden_size self] (concat (map fst (fst r))),
             Tensor [1; B; hidden_size self] (concat (map snd (fst r)))))
  | _ => Raise RuntimeError
  end.

Definition parameters (self : t) : list (tensor A) :=
  [weight_ih_l0 self; weight_hh_l0 self; bias_ih_l0 self; bias_hh_l0 self].

End LSTM.
End LSTM.

(* ================================================================= *)
(** ** The modules of [agent/hierarchical/modules.py] *)

Module VisualEncoder.
Section VisualEncoder.
Context {A : Type} {SA : Scalar A} {AA : Activation A}.

Record t : Type := {
  conv1 : @Conv2d.t A;
  conv2 : @Conv2d.t A;
  conv3 : @Conv2d.t A;
  linear : @Linear.t A
}.

(** [__init__]; the arguments are the values of the learned parameters. *)
Definition init (w1 b1 w2 b2 w3 b3 wl bl : list A) : t :=
  {| conv1 := Conv2d.init 3 32 8 4 w1 b1;
     conv2 := Conv2d.init 32 64 4 2 w2 b2;
     conv3 := Conv2d.init 64 64 3 1 w3 b3;
     linear := Linear.init (64 * 7 * 7) 256 wl bl |}.

Definition forward (self : t) (img : tensor A) : result (tensor A) :=
  batch_size <- getitem (size img) 0 ;;
  num_timesteps <- getitem (size img) 1 ;;
  frames <- view img [D (batch_size * num_timesteps); D 3; D 84; D 84] ;;
  encoding <- Conv2d.forward (conv1 self) frames ;;
  let encoding := F.relu encoding in
  encoding <- Conv2d.forward (conv2 self) encoding ;;
  let encoding := F.relu encoding in
  encoding <- Conv2d.forward (conv3 self) encoding ;;
  let encoding := F.relu encoding in
  flat <- view encoding [D (batch_size * num_timesteps); Infer] ;;
  encoding <- Linear.forward (linear self) flat ;;
  let encoding := F.relu encoding in
  view encoding [D batch_size; D num_timesteps; Infer].

(** What the layers do to the elements of a single frame. *)
Definition encode_frame (self : t) (frame : list A) : list A :=
  let e1 := map srelu (Conv2d.conv_sample (conv1 self) 84 84 frame) in
  let e2 := map srelu (Conv2d.conv_sample (conv2 self) 20 20 e1) in
  let e3 := map srelu (Conv2d.conv_sample (conv3 self) 9 9 e2) in
  map srelu (Linear.apply_row (linear self) e3).

Definition parameters (self : t) : list (tensor A) :=
  Conv2d.parameters (conv1 self) ++ Conv2d.parameters (conv2 self)
  ++ Conv2d.parameters (conv3 self) ++ Linear.parameters (linear self).

End VisualEncoder.
End VisualEncoder.

Module InstructionEncoder.
Section InstructionEncoder.
Context {A : Type} {SA : Scalar A}.

Record t : Type := {
  bow : bool;
  vocabulary_size : nat;
  embeddings : @EmbeddingBag.t A
}.

Definition init (vocabulary_size : nat) (bow : bool) (w : list A) : t :=
  {| bow := bow;
     vocabulary_size := vocabulary_size;
     embeddings := EmbeddingBag.init vocabulary_size 128 w |}.

Definition not_implemented : string :=
  "The RNN-encoding is not yet implemented. Switch to the Bag of Words."%string.

(** The warnings issued by the call, and what it returns or raises. *)
Definition forward (self : t) (instruction : tensor Z)
  : list warning * result (tensor A) :=
  let issued :=
    if negb (bow self) then warnings_warn not_implemented else [] in
  (issued, EmbeddingBag.forward (embeddings self) instruction None).

End InstructionEncoder.
End InstructionEncoder.

Module Fusion.
Section Fusion.
Context {A : Type}.

(** The class defines no attribute. *)
Record t : Type := {}.

Definition init : t := Build_t.

Definition forward (self : t) (visual_encoding instruction_encoding : tensor A)
  : result (tensor A) :=
  batch_size <- getitem (size visual_encoding) 0 ;;
  num_timesteps <- getitem (size visual_encoding) 1 ;;
  unsqueezed <- unsqueeze instruction_encoding 1 ;;
  instruction_expanded <- expand unsqueezed [batch_size; num_timesteps; 128] ;;
  torch.cat_last [visual_encoding; instruction_expanded].

Definition parameters (self : t) : list (tensor A) := [].

End Fusion.
End Fusion.

Module TimeEncoder.
Section TimeEncoder.
Context {A : Type} {SA : Scalar A} {AA : Activation A}.

Record t : Type := {
  hidden_size : nat;
  lstm : @LSTM.t A
}.

Definition init (w_ih w_hh b_ih b_hh : list A) : t :=
  {| hidden_size := 256;
     lstm := LSTM.init 384 256 true w_ih w_hh b_ih b_hh |}.

Definition forward (self : t) (fused : tensor A) : result (tensor A) :=
  batch_size <- getitem (size fused) 0 ;;
  let hidden := (torch.zeros [batch_size; hidden_size self],
                 torch.zeros [batch_size; hidden_size self]) in
  '(output, hidden) <- LSTM.forward (lstm self) fused hidden ;;
  squeeze (fst hidden) 0.

(** [forward] as a method call on the module object: the object after the
    call and the outcome of the call.  The method assigns no attribute. *)
Definition call (self : t) (fused : tensor A) : t * result (tensor A) :=
  (self, forward self fused).

(** A sequence of calls on one object. *)
Fixpoint calls (self : t) (inputs : list (tensor A)) : list (result (tensor A)) :=
  match inputs with
  | [] => []
  | x :: rest => let (self', r) := call self x in r :: calls self' rest
  end.

(** The recurrence of one batch row written out: the cell is folded over
    the [T] input vectors of the row, starting from the zero state. *)
Definition run_row (self : t) (T : nat) (x : list A) (b : nat) : list A * list A :=
  fold_left (fun hc s =>
               LSTM.LSTMCell (lstm self) (slice (b * T + s) 384 x) hc)
            (seq 0 T) (repeat szero 256, repeat szero 256).

End TimeEncoder.
End TimeEncoder.

Module SwitchPolicy.
Section SwitchPolicy.
Context {A : Type} {SA : Scalar A} {AA : Activation A}.

Record t : Type := { linear : @Linear.t A }.

Definition init (w b : list A) : t := {| linear := Linear.init 256 2 w b |}.

Definition forward (self : t) (time_encoded : tensor A) : result (tensor A) :=
  logits <- Linear.forward (linear self) time_encoded ;;
  Ok (F.softmax_last logits).

End SwitchPolicy.
End SwitchPolicy.

Module InstructionPolicy.
Section InstructionPolicy.
Context {A : Type} {SA : Scalar A} {AA : Activation A}.

Record t : Type := {
  num_instructions : nat;
  num_objects : nat;
  instruction_linear : @Linear.t A;
  object_linear : @Linear.t A
}.

Definition init (num_instructions num_objects : nat) (wi bi wo bo : list A) : t :=
  {| num_instructions := num_instructions;
     num_objects := num_objects;
     instruction_linear := Linear.init 256 num_instructions wi bi;
     object_linear := Linear.init 256 num_objects wo bo |}.

Definition forward (self : t) (time_encoded : tensor A)
  : result (tensor A * tensor A) :=
  instruction_logits <- Linear.forward (instruction_linear self) time_encoded ;;
  let instruction_probs := F.softmax_last instruction_logits in
  object_logits <- Linear.forward (object_linear self) time_encoded ;;
  let object_probs := F.softmax_last object_logits in
  Ok (instruction_probs, object_probs).

End InstructionPolicy.
End InstructionPolicy.

Module AugmentedPolicy.
Section AugmentedPolicy.
Context {A : Type} {SA : Scalar A} {AA : Activation A}.

Record t : Type := {
  num_actions : nat;
  linear : @Linear.t A
}.

Definition init (num_actions : nat) (w b : list A) : t :=
  {| num_actions := num_actions; linear := Linear.init 256 num_actions w b |}.

Definition forward (self : t) (time_encoded : tensor A) : result (tensor A) :=
  logits <- Linear.forward (linear self) time_encoded ;;
  let action_probs := F.softmax_last logits in
  Ok action_probs.

End AugmentedPolicy.
End AugmentedPolicy.

(* ================================================================= *)
(** ** The self-test run by [__main__] *)

(** What a run of the script can end with besides its normal end: an
    exception of a call, or a failed [assert]. *)
Inductive failure : Type :=
| Exception (e : exn)
| AssertionError.

(** What a run leaves behind: the lines it printed and the warnings it
    issued, in order. *)
Inductive event : Type :=
| Printed (line : string)
| Warned (w : warning).

Definition script (T : Type) : Type := (list event * (failure + T))%type.

Definition sbind {T U : Type} (c : script T) (k : T -> script U) : script U :=
  match c with
  | (events, inl f) => (events, inl f)
  | (events, inr x) => let (events', r) := k x in (events ++ events', r)
  end.

Notation "x <~ c ;; k" := (sbind c (fun x => k))
  (at level 61, c at next level, right associativity) : result_scope.
Notation "' p <~ c ;; k" := (sbind c (fun p => k))
  (at level 61, p pattern, c at next level, right associativity) : result_scope.

Definition print (line : string) : script unit := ([Printed line], inr tt).

Definition assert (b : bool) : script unit :=
  ([], if b then inr tt else inl AssertionError).

Definition lift {T : Type} (c : result T) : script T :=
  ([], match c with Ok x => inr x | Raise e => inl (Exception e) end).

Definition lift_warned {T : Type} (c : list warning * result T) : script T :=
  (map Warned (fst c),
   match snd c with Ok x => inr x | Raise e => inl (Exception e) end).

Module SelfTest.
Section SelfTest.
Context {A : Type} {SA : Scalar A} {AA : Activation A}.

(** Everything the script draws at random: the token ids of
    [random_(0, 10)], the pixels of [randn], and the initial values of the
    parameters of the modules it constructs. *)
Record draws : Type := {
  instr_values : list Z;
  visual_values : list A;
  embedding_w : list A;
  conv1_w : list A; conv1_b : list A;
  conv2_w : list A; conv2_b : list A;
  conv3_w : list A; conv3_b : list A;
  linear_w : list A; linear_b : list A;
  lstm_w_ih : list A; lstm_w_hh : list A;
  lstm_b_ih : list A; lstm_b_hh : list A;
  switch_w : list A; switch_b : list A;
  instruction_w : list A; instruction_b : list A;
  object_w : list A; object_b : list A;
  action_w : list A; action_b : list A
}.

Definition BATCH_SIZE : nat := 10.
Definition NUM_TIMESTEPS : nat := 4.

Definition main (d : draws) : script unit :=
  (* Instruction part *)
  let instr_input := Tensor [BATCH_SIZE; 5] (instr_values d) in
  let instr_encoder := InstructionEncoder.init 10 true (embedding_w d) in
  instr_encoding <~ lift_warned (InstructionEncoder.forward instr_encoder instr_input) ;;
  _ <~ assert (shape_eqb (size instr_encoding) [BATCH_SIZE; 128]) ;;
  _ <~ print "Instruction encoder: Output size is verified." ;;
  (* Visual part *)
  let visual_input :=
    Tensor [BATCH_SIZE; NUM_TIMESTEPS; 3; 84; 84] (visual_values d) in
  let visual_encoder :=
    VisualEncoder.init (conv1_w d) (conv1_b d) (conv2_w d) (conv2_b d)
                       (conv3_w d) (conv3_b d) (linear_w d) (linear_b d) in
  visual_encoding <~ lift (VisualEncoder.forward visual_encoder visual_input) ;;
  _ <~ assert (shape_eqb (size visual_encoding) [BATCH_SIZE; NUM_TIMESTEPS; 256]) ;;
  _ <~ print "Visual encoder: Output size is verified." ;;
  (* Fusion part *)
  let fuser := Fusion.init in
  fused_encoding <~ lift (Fusion.forward fuser visual_encoding instr_encoding) ;;
  _ <~ assert (shape_eqb (size fused_encoding) [BATCH_SIZE; NUM_TIMESTEPS; 384]) ;;
  _ <~ print "Fuser encoding: Output size is verified." ;;
  (* Time-encoder part *)
  let time_encoder :=
    TimeEncoder.init (lstm_w_ih d) (lstm_w_hh d) (lstm_b_ih d) (lstm_b_hh d) in
  time_encoding <~ lift (TimeEncoder.forward time_encoder fused_encoding) ;;
  _ <~ assert (shape_eqb (size time_encoding) [BATCH_SIZE; 256]) ;;
  _ <~ print "Time encoder: Output size is verified." ;;
  (* Switch policy *)
  let switch_policy := SwitchPolicy.init (switch_w d) (switch_b d) in
  switch <~ lift (SwitchPolicy.forward switch_policy time_encoding) ;;
  _ <~ assert (shape_eqb (size switch) [BATCH_SIZE; 2]) ;;
  _ <~ print "Switch policy: Output size is verified." ;;
  (* Instruction policy *)
  let instruction_policy :=
    InstructionPolicy.init 4 6 (instruction_w d) (instruction_b d)
                           (object_w d) (object_b d) in
  '(instruction, obj) <~ lift (InstructionPolicy.forward instruction_policy time_encoding) ;;
  _ <~ assert (shape_eqb (size instruction) [BATCH_SIZE; 4]) ;;
  _ <~ assert (shape_eqb (size obj) [BATCH_SIZE; 6]) ;;
  _ <~ print "Instruction policy: Output sizes are verified." ;;
  (* Augmented policy *)
  let augmented_policy := AugmentedPolicy.init 8 (action_w d) (action_b d) in
  action_probs <~ lift (AugmentedPolicy.forward augmented_policy time_encoding) ;;
  _ <~ assert (shape_eqb (size action_probs) [BATCH_SIZE; 8]) ;;
  print "Augmented policy: Output size is verified.".

End SelfTest.
End SelfTest.

(* ================================================================= *)
(** ** The warning machinery of the interpreter *)

Definition warning_eq_dec (w1 w2 : warning) : {w1 = w2} + {w1 <> w2}.
Proof. decide equality. apply string_dec. Defined.

(** What [warnings.warn] does with a warning once the filters have been
    consulted, as [warnings.py] of the standard library has it.  The
    registry is the one of the module that calls [warnings.warn]; its keys
    are text, category and line number, and as [modules.py] calls
    [warnings.warn] on one line only, the line number is left out of the
    key. *)
Module warnings.

(** The action that the filters select. *)
Inductive action : Type :=
| Error
| Ignore
| Always
| Default
| PerModule
| Once.

Record state : Type := {
  action_of : action;
  registry : list warning;
  onceregistry : list warning
}.

(** A fresh interpreter: none of the filters that Python installs itself
    matches a [UserWarning], so the default action applies, and nothing is
    registered yet. *)
Definition initial : state :=
  {| action_of := Default; registry := []; onceregistry := [] |}.

Inductive disposition : Type :=
| Shown
| Suppressed
| Raised.

Definition seen (w : warning) (l : list warning) : bool :=
  if in_dec warning_eq_dec w l then true else false.

Definition register (w : warning) (st : state) : state :=
  {| action_of := action_of st;
     registry := w :: registry st;
     onceregistry := onceregistry st |}.

Definition warn (st : state) (w : warning) : state * disposition :=
  if seen w (registry st) then (st, Suppressed)
  else
    match action_of st with
    | Ignore => (st, Suppressed)
    | Error => (st, Raised)
    | Always => (st, Shown)
    | Default => (register w st, Shown)
    | PerModule => (register w st, Shown)
    | Once =>
        if seen w (onceregistry st) then (register w st, Suppressed)
        else ({| action_of := action_of st;
                 registry := w :: registry st;
                 onceregistry := w :: onceregistry st |}, Shown)
    end.

End warnings.

(** How a call of [InstructionEncoder.forward] ends for its caller: the
    warnings shown, and either what [forward] returns or raises, or the
    warning raised as an exception by [warnings.warn] itself. *)
Inductive outcome (T : Type) : Type :=
| Finished (r : result T)
| WarningRaised (w : warning).

Arguments Finished {T} r.
Arguments WarningRaised {T} w.

Module Session.
Section Session.
Context {A : Type} {SA : Scalar A}.

(** One call, in a given state of the warning machinery. *)
Definition call (st : warnings.state) (self : @InstructionEncoder.t A)
  (instruction : tensor Z)
  : warnings.state * (list warning * outcome (tensor A)) :=
  let (issued, r) := InstructionEncoder.forward self instruction in
  match issued with
  | [] => (st, ([], Finished r))
  | w :: _ =>
      match warnings.warn st w with
      | (st', warnings.Shown) => (st', ([w], Finished r))
      | (st', warnings.Suppressed) => (st', ([], Finished r))
      | (st', warnings.Raised) => (st', ([], WarningRaised w))
      end
  end.

(** A sequence of calls in one interpreter. *)
Fixpoint calls (st : warnings.state) (self : @InstructionEncoder.t A)
  (instructions : list (tensor Z))
  : list (list warning * outcome (tensor A)) :=
  match instructions with
  | [] => []
  | x :: rest =>
      let (st', r) := call st self x in r :: calls st' self rest
  end.

End Session.
End Session.

(* ================================================================= *)
(** ** Floating point scalars *)

(** The arithmetic of binary64 numbers, as the kernel evaluates it. *)
#[export] Instance Scalar_float : Scalar float :=
  {| szero := 0%float; sadd := PrimFloat.add; smul := PrimFloat.mul |}.

(** An embedding table of three words: [2^53] everywhere, its opposite
    everywhere, and one everywhere.  [2^53 + 1] is [2^53] again, in
    double as in single precision. *)
Definition float_table : list float :=
  repeat 9007199254740992%float 128
  ++ repeat (- 9007199254740992)%float 128
  ++ repeat 1%float 128.

(* ================================================================= *)
(** ** Vocabulary of the statements *)

(** [x] added up [k] times. *)
Fixpoint nsmul {A : Type} {SA : Scalar A} (k : nat) (x : A) : A :=
  match k with
  | 0 => szero
  | S k' => sadd x (nsmul k' x)
  end.

(** A token id of a vocabulary of [V] words. *)
Definition token (V : nat) (z : Z) : Prop := (0 <= z < Z.of_nat V)%Z.

(** The sum of the rows of the embedding table [w] (rows of 128 elements)
    that the tokens of an instruction select, one term per token. *)
Definition sum_of_embeddings {A : Type} {SA : Scalar A} (w : list A)
  (instruction : list Z) : list A :=
  fold_left vadd (map (fun z => slice (Z.to_nat z) 128 w) instruction)
            (repeat szero 128).

(** A visual encoder whose parameters are all zero, at the real numbers. *)
Definition zero_weights : @VisualEncoder.t R :=
  VisualEncoder.init (repeat 0%R (32 * 3 * 8 * 8)) (repeat 0%R 32)
                     (repeat 0%R (64 * 32 * 4 * 4)) (repeat 0%R 64)
                     (repeat 0%R (64 * 64 * 3 * 3)) (repeat 0%R 64)
                     (repeat 0%R (256 * (64 * 7 * 7))) (repeat 0%R 256).

(** A time encoder whose parameters are all zero, at the real numbers. *)
Definition zero_time_encoder : @TimeEncoder.t R :=
  TimeEncoder.init (repeat 0%R (4 * 256 * 384)) (repeat 0%R (4 * 256 * 256))
                   (repeat 0%R (4 * 256)) (repeat 0%R (4 * 256)).

(** A probability vector: no negative entry, and the entries add up to
    one. *)
Definition distribution (p : list R) : Prop :=
  Forall (fun x => 0 <= x)%R p /\ ssum p = 1%R.

(** Draws of the self-test: every token id is 3, every pixel and every
    parameter is zero. *)
Definition zero_draws : @SelfTest.draws R :=
  {| SelfTest.instr_values := repeat 3%Z (10 * 5);
     SelfTest.visual_values := repeat 0%R (10 * 4 * 3 * 84 * 84);
     SelfTest.embedding_w := repeat 0%R (10 * 128);
     SelfTest.conv1_w := repeat 0%R (32 * 3 * 8 * 8);
     SelfTest.conv1_b := repeat 0%R 32;
     SelfTest.conv2_w := repeat 0%R (64 * 32 * 4 * 4);
     SelfTest.conv2_b := repeat 0%R 64;
     SelfTest.conv3_w := repeat 0%R (64 * 64 * 3 * 3);
     SelfTest.conv3_b := repeat 0%R 64;
     SelfTest.linear_w := repeat 0%R (256 * (64 * 7 * 7));
     SelfTest.linear_b := repeat 0%R 256;
     SelfTest.lstm_w_ih := repeat 0%R (4 * 256 * 384);
     SelfTest.lstm_w_hh := repeat 0%R (4 * 256 * 256);
     SelfTest.lstm_b_ih := repeat 0%R (4 * 256);
     SelfTest.lstm_b_hh := repeat 0%R (4 * 256);
     SelfTest.switch_w := repeat 0%R (2 * 256);
     SelfTest.switch_b := repeat 0%R 2;
     SelfTest.instruction_w := repeat 0%R (4 * 256);
     SelfTest.instruction_b := repeat 0%R 4;
     SelfTest.object_w := repeat 0%R (6 * 256);
     SelfTest.object_b := repeat 0%R 6;
     SelfTest.action_w := repeat 0%R (8 * 256);
     SelfTest.action_b := repeat 0%R 8 |}.

(* ================================================================= *)
(** * Properties *)

Unset Implicit Arguments.

(** ** The operations on small inputs *)

Example view_infers_size :
  view (Tensor [2; 3] [1; 2; 3; 4; 5; 6]%Z) [D 3; Infer]
  = Ok (Tensor [3; 2] [1; 2; 3; 4; 5; 6]%Z).
Proof. reflexivity. Qed.

Example view_rejects_count :
  view (Tensor [2; 3] [1; 2; 3; 4; 5; 6]%Z) [D 4; Infer] = Raise RuntimeError.
Proof. reflexivity. Qed.

Example expand_repeats_axis :
  expand (Tensor [2; 1; 2] [1; 2; 3; 4]%Z) [2; 3; 2]
  = Ok (Tensor [2; 3; 2] [1; 2; 1; 2; 1; 2; 3; 4; 3; 4; 3; 4]%Z).
Proof. reflexivity. Qed.

Example cat_last_interleaves :
  torch.cat_last [Tensor [1; 2; 2] [1; 2; 3; 4]%Z; Tensor [1; 2; 1] [9; 8]%Z]
  = Ok (Tensor [1; 2; 3] [1; 2; 9; 3; 4; 8]%Z).
Proof. reflexivity. Qed.

Example cat_last_rejects_lead :
  torch.cat_last [Tensor [1; 2; 2] [1; 2; 3; 4]%Z; Tensor [2; 1; 1] [9; 8]%Z]
  = Raise RuntimeError.
Proof. reflexivity. Qed.

Example arange_steps : torch.arange 0 6 2 = Ok [0; 2; 4].
Proof. reflexivity. Qed.

Example conv2d_window :
  Conv2d.forward (Conv2d.init 1 1 2 1 [1; 2; 3; 4]%Z [10]%Z)
                 (Tensor [1; 1; 3; 3] [1; 2; 3; 4; 5; 6; 7; 8; 9]%Z)
  = Ok (Tensor [1; 1; 2; 2] [47; 57; 77; 87]%Z).
Proof. reflexivity. Qed.

Example conv2d_stride :
  Conv2d.forward (Conv2d.init 1 2 1 2 [1; -1]%Z [0; 100]%Z)
                 (Tensor [1; 1; 3; 3] [1; 2; 3; 4; 5; 6; 7; 8; 9]%Z)
  = Ok (Tensor [1; 2; 2; 2] [1; 3; 7; 9; 99; 97; 93; 91]%Z).
Proof. reflexivity. Qed.

Example conv2d_rejects_channels :
  Conv2d.forward (Conv2d.init 3 1 1 1 [1; 1; 1]%Z [0]%Z)
                 (Tensor [1; 1; 3; 3] [1; 2; 3; 4; 5; 6; 7; 8; 9]%Z)
  = Raise RuntimeError.
Proof. reflexivity. Qed.

Example linear_rows :
  Linear.forward (Linear.init 2 3 [1; 2; 3; 4; 5; 6]%Z [10; 20; 30]%Z)
                 (Tensor [2; 2] [1; 1; 0; 1]%Z)
  = Ok (Tensor [2; 3] [13; 27; 41; 12; 24; 36]%Z).
Proof. reflexivity. Qed.

Example embedding_bag_sums :
  EmbeddingBag.forward (EmbeddingBag.init 3 2 [1; 2; 3; 4; 5; 6]%Z)
                       (Tensor [2; 2] [0; 2; 1; 1]%Z) None
  = Ok (Tensor [2; 2] [6; 8; 6; 8]%Z).
Proof. reflexivity. Qed.

Example embedding_bag_rejects_id :
  EmbeddingBag.forward (EmbeddingBag.init 3 2 [1; 2; 3; 4; 5; 6]%Z)
                       (Tensor [1; 2] [0; 3]%Z) None
  = Raise RuntimeError.
Proof. reflexivity. Qed.

Example visual_encoder_needs_two_axes :
  VisualEncoder.forward zero_weights (Tensor [5] (repeat 0%R 5))
  = Raise IndexError.
Proof. reflexivity. Qed.

Example squeeze_keeps_wide_axis :
  squeeze (Tensor [2; 3] [1; 2; 3; 4; 5; 6]%Z) 0
  = Ok (Tensor [2; 3] [1; 2; 3; 4; 5; 6]%Z).
Proof. reflexivity. Qed.

(** ** Blocks of a flat list *)

Lemma rows_length {A : Type} (n k : nat) (l : list A) : length (rows n k l) = k.
Proof. unfold rows. now rewrite length_map, length_seq. Qed.

Lemma slice_length {A : Type} (i n : nat) (l : list A) :
  i * n + n <= length l -> length (slice i n l) = n.
Proof.
  intros H. unfold slice. rewrite length_firstn, length_skipn. lia.
Qed.

Lemma slice_map {A B : Type} (f : A -> B) (i n : nat) (l : list A) :
  slice i n (map f l) = map f (slice i n l).
Proof. unfold slice. now rewrite skipn_map, firstn_map. Qed.

Lemma slice_0_all {A : Type} (n : nat) (l : list A) : length l = n -> slice 0 n l = l.
Proof. intros <-. unfold slice. simpl. apply firstn_all. Qed.

Lemma slice_app_head {A : Type} (n : nat) (a l : list A) :
  length a = n -> slice 0 n (a ++ l) = a.
Proof.
  intros <-. unfold slice. simpl.
  rewrite firstn_app, Nat.sub_diag, firstn_all. simpl. apply app_nil_r.
Qed.

Lemma slice_app_tail {A : Type} (i n : nat) (a l : list A) :
  length a = n -> slice (S i) n (a ++ l) = slice i n l.
Proof.
  intros <-. unfold slice. f_equal.
  replace (S i * length a) with (i * length a + length a) by lia.
  rewrite <- skipn_skipn.
  rewrite (skipn_app (length a)), Nat.sub_diag, skipn_all. reflexivity.
Qed.

Lemma flat_map_const_length {A B : Type} (f : A -> list B) (m : nat) (l : list A) :
  (forall x, In x l -> length (f x) = m) ->
  length (flat_map f l) = length l * m.
Proof.
  induction l as [|x l IH]; intros H; simpl; [reflexivity|].
  rewrite length_app, IH.
  - rewrite (H x) by now left. reflexivity.
  - intros y Hy. apply H. now right.
Qed.

Lemma slice_flat_map {A B : Type} (f : A -> list B) (m : nat) (l : list A) (d : A) :
  (forall x, In x l -> length (f x) = m) ->
  forall i, i < length l -> slice i m (flat_map f l) = f (nth i l d).
Proof.
  induction l as [|x l IH]; intros H i Hi; simpl in *; [lia|].
  destruct i as [|i].
  - apply slice_app_head. auto.
  - rewrite slice_app_tail by auto. apply IH; [auto | lia].
Qed.

Lemma flat_map_seq_ext {B : Type} (f g : nat -> list B) (s k : nat) :
  (forall i, s <= i < s + k -> f i = g i) ->
  flat_map f (seq s k) = flat_map g (seq s k).
Proof.
  intros H. rewrite !flat_map_concat_map. f_equal.
  apply map_ext_in. intros i Hi. apply in_seq in Hi. now apply H.
Qed.

Lemma rows_nth {A : Type} (n k i : nat) (l : list A) (d : list A) :
  i < k -> nth i (rows n k l) d = slice i n l.
Proof.
  intros H. unfold rows.
  rewrite nth_indep with (d' := slice 0 n l) by now rewrite length_map, length_seq.
  rewrite (map_nth (fun j => slice j n l) (seq 0 k) 0 i).
  now rewrite seq_nth.
Qed.

Lemma rows_In_length {A : Type} (n k : nat) (l r : list A) :
  k * n <= length l -> In r (rows n k l) -> length r = n.
Proof.
  intros H Hr. unfold rows in Hr. apply in_map_iff in Hr.
  destruct Hr as [i [<- Hi]]. apply in_seq in Hi.
  apply slice_length. nia.
Qed.

Lemma slice_slice {A : Type} (i j n m : nat) (l : list A) :
  j < m -> slice j n (slice i (m * n) l) = slice (i * m + j) n l.
Proof.
  intros H. unfold slice.
  rewrite skipn_firstn_comm, skipn_skipn, firstn_firstn.
  replace (j * n + i * (m * n)) with ((i * m + j) * n) by lia.
  f_equal. apply Nat.min_l. nia.
Qed.

Lemma concat_rows {A : Type} (n k : nat) (l : list A) :
  length l = k * n -> concat (rows n k l) = l.
Proof.
  revert l. induction k as [|k IH]; intros l H.
  - destruct l; [reflexivity | discriminate].
  - transitivity (firstn n l ++ skipn n l); [| apply firstn_skipn].
    rewrite <- (IH (skipn n l)) by (rewrite length_skipn; lia).
    unfold rows. simpl. f_equal.
    rewrite <- seq_shift, map_map. f_equal.
    apply map_ext. intros i. unfold slice. rewrite skipn_skipn.
    do 2 f_equal. lia.
Qed.

(** ** The embedding bag *)

Lemma mapM_ok {T U : Type} (f : T -> result U) (g : T -> U) (l : list T) :
  (forall x, In x l -> f x = Ok (g x)) -> mapM f l = Ok (map g l).
Proof.
  induction l as [|x l IH]; intros H; simpl; [reflexivity|].
  rewrite (H x) by now left. simpl.
  rewrite IH by (intros y Hy; apply H; now right). reflexivity.
Qed.

Lemma combine_map_same {T U V : Type} (f : T -> U) (g : T -> V) (l : list T) :
  combine (map f l) (map g l) = map (fun x => (f x, g x)) l.
Proof. induction l as [|x l IH]; simpl; [reflexivity | now rewrite IH]. Qed.

Lemma arange_rows (B L : nat) :
  1 <= L -> torch.arange 0 (B * L) L = Ok (map (fun i => i * L) (seq 0 B)).
Proof.
  intros HL. unfold torch.arange.
  destruct (Nat.eqb_spec L 0) as [->|_]; [lia|].
  rewrite Nat.sub_0_r.
  replace ((B * L + (L - 1)) / L) with B; [reflexivity|].
  rewrite Nat.div_add_l by lia. rewrite Nat.div_small by lia. lia.
Qed.

Lemma arange_zero_step (start stop : nat) :
  torch.arange start stop 0 = Raise RuntimeError.
Proof. reflexivity. Qed.

Lemma In_slice {T : Type} (i n : nat) (l : list T) (x : T) :
  In x (slice i n l) -> In x l.
Proof.
  unfold slice. intros H.
  rewrite <- (firstn_skipn (i * n) l). apply in_or_app. right.
  rewrite <- (firstn_skipn n (skipn (i * n) l)). apply in_or_app. now left.
Qed.

Lemma Forall_slice {T : Type} (P : T -> Prop) (i n : nat) (l : list T) :
  Forall P l -> Forall P (slice i n l).
Proof.
  intros H. apply Forall_forall. intros x Hx.
  rewrite Forall_forall in H. apply H. eapply In_slice; eauto.
Qed.

Section EmbeddingBagFacts.
Context {A : Type} {SA : Scalar A}.

Lemma bags_rows (indices : list Z) (B L : nat) :
  length indices = B * L ->
  EmbeddingBag.bags indices (map (fun i => i * L) (seq 0 B)) = rows L B indices.
Proof.
  intros Hlen. unfold EmbeddingBag.bags. destruct B as [|k]; [reflexivity|].
  assert (Hnext : tl (map (fun i => i * L) (seq 0 (S k))) ++ [length indices]
                  = map (fun i => S i * L) (seq 0 (S k))).
  { rewrite Hlen. cbn [seq map tl].
    change [S k * L] with (map (fun i => i * L) [1 + k]).
    rewrite <- map_app, <- seq_S, <- seq_shift, map_map. reflexivity. }
  rewrite Hnext, combine_map_same, map_map. unfold rows.
  apply map_ext. intros i. cbn [fst snd]. unfold slice.
  f_equal. lia.
Qed.

Lemma embed_ok (self : @EmbeddingBag.t A) (z : Z) :
  token (EmbeddingBag.num_embeddings self) z ->
  EmbeddingBag.embed self z
  = Ok (slice (Z.to_nat z) (EmbeddingBag.embedding_dim self)
              (data (EmbeddingBag.weight self))).
Proof.
  intros [H0 H1]. unfold EmbeddingBag.embed.
  apply Z.leb_le in H0. apply Z.ltb_lt in H1. now rewrite H0, H1.
Qed.

Lemma bag_sum_fold (self : @EmbeddingBag.t A) (bag : list Z) (acc : list A) :
  Forall (token (EmbeddingBag.num_embeddings self)) bag ->
  fold_left (fun acc z => a <- acc ;; e <- EmbeddingBag.embed self z ;; Ok (vadd a e))
            bag (Ok acc)
  = Ok (fold_left vadd
          (map (fun z => slice (Z.to_nat z) (EmbeddingBag.embedding_dim self)
                               (data (EmbeddingBag.weight self))) bag) acc).
Proof.
  intros H. revert acc. induction H as [|z bag Hz _ IH]; intros acc; simpl.
  - reflexivity.
  - rewrite (embed_ok self z Hz). simpl. apply IH.
Qed.

(** On an instruction tensor of [B] rows of [L >= 1] tokens the embedding
    bag of [nn.EmbeddingBag(V, 128, mode="sum")] returns the row sums. *)
Lemma EmbeddingBag_forward_rows (V : nat) (w : list A) (x : tensor Z) (B L : nat) :
  shape x = [B; L] -> wf x -> 1 <= L ->
  (forall b, b < B -> Forall (token V) (slice b L (data x))) ->
  EmbeddingBag.forward (EmbeddingBag.init V 128 w) x None
  = Ok (Tensor [B; 128] (concat (map (sum_of_embeddings w) (rows L B (data x))))).
Proof.
  intros Hs Hwf HL Htok. unfold wf in Hwf. rewrite Hs in Hwf.
  unfold EmbeddingBag.forward. rewrite Hs.
  replace (numel [B; L]) with (B * L) by (simpl; lia).
  rewrite (arange_rows B L HL). cbn [bind].
  unfold EmbeddingBag.bag_sums.
  rewrite bags_rows by (rewrite Hwf; simpl; lia).
  rewrite (mapM_ok _ (sum_of_embeddings w)).
  - cbn [bind]. now rewrite length_map, length_seq.
  - intros r Hr. unfold rows in Hr. apply in_map_iff in Hr.
    destruct Hr as [b [<- Hb]]. apply in_seq in Hb.
    unfold EmbeddingBag.bag_sum. rewrite bag_sum_fold; [reflexivity|].
    apply Htok. lia.
Qed.

(** An instruction tensor with rows of no token is rejected: the offsets of
    the bags would be a progression of step zero. *)
Lemma EmbeddingBag_forward_empty (self : @EmbeddingBag.t A) (x : tensor Z) (B : nat) :
  shape x = [B; 0] ->
  EmbeddingBag.forward self x None = Raise RuntimeError.
Proof.
  intros Hs. unfold EmbeddingBag.forward. rewrite Hs.
  now rewrite arange_zero_step.
Qed.

Lemma vadd_length (x y : list A) :
  length (vadd x y) = Nat.min (length x) (length y).
Proof. unfold vadd. now rewrite length_map, length_combine. Qed.

Lemma fold_vadd_length (n : nat) (l : list (list A)) (acc : list A) :
  (forall v, In v l -> length v = n) -> length acc = n ->
  length (fold_left vadd l acc) = n.
Proof.
  revert acc. induction l as [|v l IH]; intros acc Hl Hacc; simpl; [assumption|].
  apply IH.
  - intros u Hu. apply Hl. now right.
  - rewrite vadd_length, Hacc, (Hl v) by now left. apply Nat.min_id.
Qed.

Lemma embedding_row_length (V : nat) (w : list A) (z : Z) :
  length w = V * 128 -> token V z ->
  length (slice (Z.to_nat z) 128 w) = 128.
Proof.
  intros Hw [H0 H1]. apply slice_length. rewrite Hw. lia.
Qed.

Lemma sum_of_embeddings_length (V : nat) (w : list A) (r : list Z) :
  length w = V * 128 -> Forall (token V) r ->
  length (sum_of_embeddings w r) = 128.
Proof.
  intros Hw Hr. unfold sum_of_embeddings. apply fold_vadd_length.
  - intros v Hv. apply in_map_iff in Hv. destruct Hv as [z [<- Hz]].
    rewrite Forall_forall in Hr. eapply embedding_row_length; eauto.
  - apply repeat_length.
Qed.

End EmbeddingBagFacts.

(* ================================================================= *)
(** ** InstructionEncoder *)

Section InstructionEncoderFacts.
Context {A : Type} {SA : Scalar A}.

(** An encoder constructed with [bow] false hands the "not yet
    implemented" warning to [warnings.warn] on every call of [forward],
    whatever the call then returns or raises. *)
Lemma recurrent_mode_calls_warn (V : nat) (w : list A) (instruction : tensor Z) :
  fst (InstructionEncoder.forward (InstructionEncoder.init V false w) instruction)
  = [UserWarning InstructionEncoder.not_implemented].
Proof. reflexivity. Qed.

(** C10: two encoders with the same embedding table, one with [bow] true
    and one with [bow] false, return (or raise) the same on the same
    instruction; the flag decides only whether the warning is issued. *)
Theorem bow_flag_only_warns (enc1 enc2 : @InstructionEncoder.t A)
  (instruction : tensor Z) :
  InstructionEncoder.embeddings enc1 = InstructionEncoder.embeddings enc2 ->
  InstructionEncoder.bow enc1 = true ->
  InstructionEncoder.bow enc2 = false ->
  snd (InstructionEncoder.forward enc1 instruction)
  = snd (InstructionEncoder.forward enc2 instruction)
  /\ fst (InstructionEncoder.forward enc1 instruction) = []
  /\ fst (InstructionEncoder.forward enc2 instruction)
     = [UserWarning InstructionEncoder.not_implemented].
Proof.
  intros He H1 H2. unfold InstructionEncoder.forward.
  rewrite He, H1, H2. simpl. auto.
Qed.

End InstructionEncoderFacts.

Lemma bow_flag_only_warns_witness :
  let w := repeat 1%Z (10 * 128) in
  let x := Tensor [2; 3] [1; 2; 3; 4; 5; 6]%Z in
  snd (InstructionEncoder.forward (InstructionEncoder.init 10 true w) x)
  = snd (InstructionEncoder.forward (InstructionEncoder.init 10 false w) x)
  /\ fst (InstructionEncoder.forward (InstructionEncoder.init 10 true w) x) = []
  /\ fst (InstructionEncoder.forward (InstructionEncoder.init 10 false w) x)
     = [UserWarning InstructionEncoder.not_implemented].
Proof.
  intros w x.
  apply (bow_flag_only_warns (InstructionEncoder.init 10 true w)
                             (InstructionEncoder.init 10 false w) x);
    reflexivity.
Defined.

(** *** Sums in a commutative monoid *)

Section Sums.
Context {A : Type} {SA : Scalar A} {LA : ScalarLaws A}.

Lemma sadd_zero_r (x : A) : sadd x szero = x.
Proof. rewrite sadd_comm. apply sadd_zero_l. Qed.

Lemma fold_sadd_acc (l : list A) (a : A) :
  fold_left sadd l a = sadd a (ssum l).
Proof.
  unfold ssum. revert a. induction l as [|x l IH]; intros a; simpl.
  - now rewrite sadd_zero_r.
  - rewrite (IH (sadd a x)), (IH (sadd szero x)), sadd_zero_l.
    apply sadd_assoc.
Qed.

Lemma ssum_cons (x : A) (l : list A) : ssum (x :: l) = sadd x (ssum l).
Proof. unfold ssum at 1. simpl. now rewrite fold_sadd_acc, sadd_zero_l. Qed.

Lemma ssum_zeros {T : Type} (l : list T) : ssum (map (fun _ => szero) l) = szero.
Proof.
  induction l as [|x l IH]; [reflexivity|].
  simpl. now rewrite ssum_cons, IH, sadd_zero_l.
Qed.

Lemma ssum_add {T : Type} (f g : T -> A) (l : list T) :
  ssum (map (fun x => sadd (f x) (g x)) l)
  = sadd (ssum (map f l)) (ssum (map g l)).
Proof.
  induction l as [|x l IH]; simpl.
  - unfold ssum. simpl. now rewrite sadd_zero_l.
  - rewrite !ssum_cons, IH, !sadd_assoc. f_equal.
    rewrite <- !sadd_assoc. f_equal. apply sadd_comm.
Qed.

(** Picking out one index of a range. *)
Lemma ssum_pick (g : nat -> A) (z : Z) (s k : nat) :
  (0 <= z)%Z ->
  ssum (map (fun v => if Z.eq_dec z (Z.of_nat v) then g v else szero) (seq s k))
  = if (s <=? Z.to_nat z) && (Z.to_nat z <? s + k) then g (Z.to_nat z) else szero.
Proof.
  intros Hz. revert s. induction k as [|k IH]; intros s.
  - cbn [seq map]. unfold ssum. cbn [fold_left].
    destruct (Nat.leb_spec s (Z.to_nat z)), (Nat.ltb_spec (Z.to_nat z) (s + 0));
      simpl; try reflexivity; lia.
  - cbn [seq map]. rewrite ssum_cons, IH.
    destruct (Z.eq_dec z (Z.of_nat s)) as [E|E].
    + assert (En : Z.to_nat z = s) by lia. rewrite En.
      destruct (Nat.leb_spec (S s) s), (Nat.leb_spec s s),
        (Nat.ltb_spec s (s + S k)); try lia.
      simpl. apply sadd_zero_r.
    + assert (En : Z.to_nat z <> s) by lia. rewrite sadd_zero_l.
      destruct (Nat.leb_spec (S s) (Z.to_nat z)), (Nat.leb_spec s (Z.to_nat z)),
        (Nat.ltb_spec (Z.to_nat z) (S s + k)),
        (Nat.ltb_spec (Z.to_nat z) (s + S k)); simpl; try reflexivity; lia.
Qed.

(** A sum over the tokens of an instruction, regrouped by vocabulary word:
    a word occurring [k] times contributes its term [k] times. *)
Lemma ssum_by_word (g : nat -> A) (V : nat) (r : list Z) :
  Forall (token V) r ->
  ssum (map (fun z => g (Z.to_nat z)) r)
  = ssum (map (fun v => nsmul (count_occ Z.eq_dec r (Z.of_nat v)) (g v)) (seq 0 V)).
Proof.
  induction 1 as [|z r Hz _ IH].
  - simpl. now rewrite ssum_zeros.
  - cbn [map]. rewrite ssum_cons, IH.
    rewrite (map_ext
      (fun v => nsmul (count_occ Z.eq_dec (z :: r) (Z.of_nat v)) (g v))
      (fun v => sadd (if Z.eq_dec z (Z.of_nat v) then g v else szero)
                     (nsmul (count_occ Z.eq_dec r (Z.of_nat v)) (g v)))).
    + rewrite ssum_add. f_equal. destruct Hz as [H0 H1].
      rewrite ssum_pick by assumption.
      replace (0 <=? Z.to_nat z) with true by reflexivity.
      replace (Z.to_nat z <? 0 + V) with true by (symmetry; apply Nat.ltb_lt; lia).
      reflexivity.
    + intros v. cbn [count_occ].
      destruct (Z.eq_dec z (Z.of_nat v)); simpl; [reflexivity|].
      now rewrite sadd_zero_l.
Qed.

Lemma vadd_comm (x y : list A) : vadd x y = vadd y x.
Proof.
  unfold vadd. revert y. induction x as [|a x IH]; intros [|b y]; simpl;
    try reflexivity.
  now rewrite sadd_comm, IH.
Qed.

Lemma vadd_assoc (x y z : list A) : vadd (vadd x y) z = vadd x (vadd y z).
Proof.
  unfold vadd. revert y z.
  induction x as [|a x IH]; intros [|b y] [|c z]; simpl; try reflexivity.
  now rewrite sadd_assoc, IH.
Qed.

Lemma fold_vadd_perm (l l' : list (list A)) :
  Permutation l l' ->
  forall acc, fold_left vadd l acc = fold_left vadd l' acc.
Proof.
  induction 1 as [|x l l' _ IH|x y l|l l' l'' _ IH1 _ IH2]; intros acc; simpl.
  - reflexivity.
  - apply IH.
  - f_equal. rewrite !vadd_assoc. f_equal. apply vadd_comm.
  - now rewrite IH1.
Qed.

Lemma sum_of_embeddings_perm (w : list A) (r r' : list Z) :
  Permutation r r' -> sum_of_embeddings w r = sum_of_embeddings w r'.
Proof.
  intros H. unfold sum_of_embeddings.
  apply fold_vadd_perm. now apply Permutation_map.
Qed.

Lemma vadd_nth (x y : list A) (j : nat) :
  j < length x -> j < length y ->
  nth j (vadd x y) szero = sadd (nth j x szero) (nth j y szero).
Proof.
  unfold vadd. revert y j.
  induction x as [|a x IH]; intros [|b y] j Hx Hy; simpl in *; try lia.
  destruct j as [|j]; [reflexivity|]. apply IH; lia.
Qed.

Lemma fold_vadd_nth (n j : nat) (l : list (list A)) (acc : list A) :
  (forall v, In v l -> length v = n) -> length acc = n -> j < n ->
  nth j (fold_left vadd l acc) szero
  = sadd (nth j acc szero) (ssum (map (fun v => nth j v szero) l)).
Proof.
  revert acc. induction l as [|v l IH]; intros acc Hl Hacc Hj; simpl.
  - unfold ssum. simpl. now rewrite sadd_zero_r.
  - rewrite IH.
    + rewrite vadd_nth, ssum_cons by (rewrite ?Hacc, ?(Hl v) by (now left); lia).
      apply sadd_assoc.
    + intros u Hu. apply Hl. now right.
    + rewrite vadd_length, Hacc, (Hl v) by now left. apply Nat.min_id.
    + assumption.
Qed.

(** A coordinate of the sum of embeddings, regrouped by vocabulary word. *)
Lemma sum_of_embeddings_nth (V : nat) (w : list A) (r : list Z) (j : nat) :
  length w = V * 128 -> Forall (token V) r -> j < 128 ->
  nth j (sum_of_embeddings w r) szero
  = ssum (map (fun v => nsmul (count_occ Z.eq_dec r (Z.of_nat v))
                              (nth j (slice v 128 w) szero)) (seq 0 V)).
Proof.
  intros Hw Hr Hj. unfold sum_of_embeddings.
  rewrite (fold_vadd_nth 128).
  - rewrite nth_repeat, sadd_zero_l, map_map.
    apply (ssum_by_word (fun v => nth j (slice v 128 w) szero) V r Hr).
  - intros v Hv. apply in_map_iff in Hv. destruct Hv as [z [<- Hz]].
    rewrite Forall_forall in Hr. eapply embedding_row_length; eauto.
  - apply repeat_length.
  - assumption.
Qed.

End Sums.

#[export] Instance ScalarLaws_Z : ScalarLaws Z.
Proof.
  split; simpl; intros; lia.
Qed.

#[export] Instance ScalarLaws_R : ScalarLaws R.
Proof.
  split; simpl; intros; lra.
Qed.

Section BagOfWords.
Context {A : Type} {SA : Scalar A}.

Lemma row_sums_length (V : nat) (w : list A) (x : tensor Z) (B L : nat) :
  length w = V * 128 ->
  (forall b, b < B -> Forall (token V) (slice b L (data x))) ->
  forall r, In r (rows L B (data x)) -> length (sum_of_embeddings w r) = 128.
Proof.
  intros Hw Htok r Hr. unfold rows in Hr. apply in_map_iff in Hr.
  destruct Hr as [b [<- Hb]]. apply in_seq in Hb.
  apply (sum_of_embeddings_length V w _ Hw). apply Htok. lia.
Qed.

(** C7, amended: for every batch size [B >= 1] and every instruction
    length [L >= 1], on token ids of the vocabulary,
    [InstructionEncoder.forward] returns a tensor of shape [(B, 128)]
    holding [B * 128] elements.  (An instruction of length zero is
    rejected, see [EmbeddingBag_forward_empty].) *)
Theorem instruction_encoder_shape (V : nat) (bow : bool) (w : list A)
  (x : tensor Z) (B L : nat) :
  length w = V * 128 ->
  shape x = [B; L] -> wf x ->
  1 <= B -> 1 <= L ->
  Forall (token V) (data x) ->
  exists out,
    snd (InstructionEncoder.forward (InstructionEncoder.init V bow w) x) = Ok out
    /\ shape out = [B; 128] /\ wf out.
Proof.
  intros Hw Hs Hwf _ HL Htok.
  assert (Hrows : forall b, b < B -> Forall (token V) (slice b L (data x)))
    by (intros; now apply Forall_slice).
  eexists. split; [|split].
  - unfold InstructionEncoder.forward. cbn [snd InstructionEncoder.embeddings
      InstructionEncoder.init].
    apply (EmbeddingBag_forward_rows V w x B L Hs Hwf HL Hrows).
  - reflexivity.
  - unfold wf. cbn [data shape]. rewrite <- flat_map_concat_map.
    rewrite (flat_map_const_length _ 128), rows_length.
    + simpl. lia.
    + apply (row_sums_length V w x B L Hw Hrows).
Qed.

End BagOfWords.

Lemma instruction_encoder_shape_witness :
  exists out,
    snd (InstructionEncoder.forward
           (InstructionEncoder.init 3 true (map Z.of_nat (seq 0 (3 * 128))))
           (Tensor [2; 2] [0; 1; 2; 2]%Z)) = Ok out
    /\ shape out = [2; 128] /\ wf out.
Proof.
  apply (instruction_encoder_shape 3 true (map Z.of_nat (seq 0 (3 * 128)))
           (Tensor [2; 2] [0; 1; 2; 2]%Z) 2 2).
  - reflexivity.
  - reflexivity.
  - reflexivity.
  - lia.
  - lia.
  - repeat constructor; unfold token; simpl; lia.
Defined.

(** C7, the claim as stated fails: an instruction tensor of one row of no
    token makes [forward] raise instead of returning a [(1, 128)] tensor. *)
Lemma empty_instruction_rejected :
  let enc := InstructionEncoder.init 10 true (repeat 0%Z (10 * 128)) in
  let x := Tensor [1; 0] (@nil Z) in
  wf x
  /\ snd (InstructionEncoder.forward enc x) = Raise RuntimeError
  /\ ~ (exists out, snd (InstructionEncoder.forward enc x) = Ok out
                    /\ shape out = [1; 128]).
Proof.
  intros enc x. split; [reflexivity|]. split; [reflexivity|].
  intros [out [H _]]. discriminate H.
Qed.

Section BagOfWordsSum.
Context {A : Type} {SA : Scalar A} {LA : ScalarLaws A}.

(** C6, amended: in bag-of-words mode, on a batch of non-empty
    instructions over the vocabulary, [InstructionEncoder.forward] returns
    for each batch element the sum of the embeddings of its tokens, added
    in token order; when the addition of the scalars is associative and
    commutative with zero as unit (exact arithmetic), permuting the tokens
    of every instruction leaves the returned tensor unchanged, and a
    coordinate of the result is the sum over the vocabulary of the
    embedding coordinate of each word taken as many times as the word
    occurs in the instruction.  (In floating point the sum depends on the
    order of the tokens.) *)
Theorem bag_of_words_sum (V : nat) (w : list A) (x x' : tensor Z) (B L : nat) :
  length w = V * 128 ->
  shape x = [B; L] -> wf x ->
  shape x' = [B; L] -> wf x' ->
  1 <= L ->
  Forall (token V) (data x) ->
  (forall b, b < B -> Permutation (slice b L (data x)) (slice b L (data x'))) ->
  exists out,
    InstructionEncoder.forward (InstructionEncoder.init V true w) x = ([], Ok out)
    /\ InstructionEncoder.forward (InstructionEncoder.init V true w) x' = ([], Ok out)
    /\ shape out = [B; 128]
    /\ forall b, b < B ->
         slice b 128 (data out) = sum_of_embeddings w (slice b L (data x))
         /\ forall j, j < 128 ->
              nth j (slice b 128 (data out)) szero
              = ssum (map (fun v =>
                        nsmul (count_occ Z.eq_dec (slice b L (data x)) (Z.of_nat v))
                              (nth j (slice v 128 w) szero))
                      (seq 0 V)).
Proof.
  intros Hw Hs Hwf Hs' Hwf' HL Htok Hperm.
  assert (Hrows : forall b, b < B -> Forall (token V) (slice b L (data x)))
    by (intros; now apply Forall_slice).
  assert (Hrows' : forall b, b < B -> Forall (token V) (slice b L (data x'))).
  { intros b Hb. eapply Permutation_Forall; [apply Hperm, Hb | apply Hrows, Hb]. }
  assert (Hsame : map (sum_of_embeddings w) (rows L B (data x'))
                  = map (sum_of_embeddings w) (rows L B (data x))).
  { unfold rows. rewrite !map_map. apply map_ext_in. intros b Hb.
    apply in_seq in Hb. apply sum_of_embeddings_perm.
    apply Permutation_sym, Hperm. lia. }
  assert (Hslice : forall b, b < B ->
            slice b 128 (concat (map (sum_of_embeddings w) (rows L B (data x))))
            = sum_of_embeddings w (slice b L (data x))).
  { intros b Hb. rewrite <- flat_map_concat_map.
    rewrite (slice_flat_map _ 128 _ [] (row_sums_length V w x B L Hw Hrows))
      by now rewrite rows_length.
    now rewrite rows_nth. }
  eexists. split; [|split; [|split]].
  - unfold InstructionEncoder.forward. cbn [InstructionEncoder.bow
      InstructionEncoder.embeddings InstructionEncoder.init negb].
    now rewrite (EmbeddingBag_forward_rows V w x B L Hs Hwf HL Hrows).
  - unfold InstructionEncoder.forward. cbn [InstructionEncoder.bow
      InstructionEncoder.embeddings InstructionEncoder.init negb].
    now rewrite (EmbeddingBag_forward_rows V w x' B L Hs' Hwf' HL Hrows'), Hsame.
  - reflexivity.
  - intros b Hb. cbn [data]. rewrite (Hslice b Hb). split; [reflexivity|].
    intros j Hj. apply (sum_of_embeddings_nth V w _ j Hw (Hrows b Hb) Hj).
Qed.

End BagOfWordsSum.

Lemma bag_of_words_sum_witness :
  let w := map Z.of_nat (seq 0 (3 * 128)) in
  let x := Tensor [2; 2] [0; 1; 2; 2]%Z in
  let x' := Tensor [2; 2] [1; 0; 2; 2]%Z in
  exists out,
    InstructionEncoder.forward (InstructionEncoder.init 3 true w) x = ([], Ok out)
    /\ InstructionEncoder.forward (InstructionEncoder.init 3 true w) x' = ([], Ok out)
    /\ shape out = [2; 128]
    /\ forall b, b < 2 ->
         slice b 128 (data out) = sum_of_embeddings w (slice b 2 (data x))
         /\ forall j, j < 128 ->
              nth j (slice b 128 (data out)) szero
              = ssum (map (fun v =>
                        nsmul (count_occ Z.eq_dec (slice b 2 (data x)) (Z.of_nat v))
                              (nth j (slice v 128 w) szero))
                      (seq 0 3)).
Proof.
  intros w x x'.
  apply (bag_of_words_sum 3 w x x' 2 2).
  - reflexivity.
  - reflexivity.
  - reflexivity.
  - reflexivity.
  - reflexivity.
  - lia.
  - repeat constructor; unfold token; simpl; lia.
  - intros b Hb. destruct b as [|[|b]].
    + apply perm_swap.
    + apply Permutation_refl.
    + lia.
Defined.

(* ================================================================= *)
(** ** Fusion *)

Lemma shape_eqb_refl (s : list nat) : shape_eqb s s = true.
Proof. induction s as [|n s IH]; simpl; [reflexivity|]. now rewrite Nat.eqb_refl. Qed.

Lemma flat_map_id_on {A : Type} (f : list A -> list A) (l : list (list A)) :
  (forall r, In r l -> f r = r) -> flat_map f l = concat l.
Proof.
  intros H. rewrite flat_map_concat_map. f_equal.
  rewrite <- (map_id l) at 2. now apply map_ext_in.
Qed.

Lemma expand_data_id {A : Type} (s : list nat) :
  forall d : list A, length d = numel s -> expand_data s s d = d.
Proof.
  induction s as [|n s IH]; intros d Hd; [reflexivity|].
  cbn [expand_data]. rewrite Nat.eqb_refl.
  cbn [numel fold_right] in Hd. fold (numel s) in Hd.
  rewrite flat_map_id_on.
  - apply concat_rows. lia.
  - intros r Hr. apply IH. apply (rows_In_length (numel s) n d); [lia | assumption].
Qed.

Lemma expand_data_row {A : Type} (s : list nat) (T : nat) (r : list A) :
  length r = numel s ->
  expand_data (1 :: s) (T :: s) r = concat (repeat r T).
Proof.
  intros Hr. cbn [expand_data].
  destruct (Nat.eqb_spec 1 T) as [<-|_].
  - unfold rows. cbn [seq map flat_map repeat concat].
    rewrite slice_0_all by assumption. now rewrite expand_data_id.
  - now rewrite expand_data_id.
Qed.

Lemma concat_repeat_length {A : Type} (r : list A) (T : nat) :
  length (concat (repeat r T)) = T * length r.
Proof.
  induction T as [|T IH]; [reflexivity|].
  cbn [repeat concat]. rewrite length_app, IH. lia.
Qed.

Lemma slice_concat_repeat {A : Type} (r : list A) (n T t : nat) :
  length r = n -> t < T -> slice t n (concat (repeat r T)) = r.
Proof.
  intros Hr. revert t. induction T as [|T IH]; intros t Ht; [lia|].
  cbn [repeat concat]. destruct t as [|t].
  - now apply slice_app_head.
  - rewrite slice_app_tail by assumption. apply IH. lia.
Qed.

Lemma expand_data_cons_same {A : Type} (n : nat) (s t : list nat) (d : list A) :
  expand_data (n :: s) (n :: t) d
  = flat_map (expand_data s t) (rows (numel s) n d).
Proof. cbn [expand_data]. now rewrite Nat.eqb_refl. Qed.

Lemma flat_map_ext_on {T U : Type} (f g : T -> list U) (l : list T) :
  (forall x, In x l -> f x = g x) -> flat_map f l = flat_map g l.
Proof.
  intros H. rewrite !flat_map_concat_map. f_equal. now apply map_ext_in.
Qed.

Lemma firstn_app_exact {T : Type} (n : nat) (a b : list T) :
  length a = n -> firstn n (a ++ b) = a.
Proof.
  intros <-. rewrite firstn_app, Nat.sub_diag, firstn_all, firstn_O.
  apply app_nil_r.
Qed.

Lemma skipn_app_exact {T : Type} (n : nat) (a b : list T) :
  length a = n -> skipn n (a ++ b) = b.
Proof.
  intros <-. rewrite skipn_app, Nat.sub_diag, skipn_all. reflexivity.
Qed.

Section FusionFacts.
Context {A : Type}.

Lemma Fusion_forward_eq (self : Fusion.t) (visual instruction : tensor A) (B T : nat) :
  shape visual = [B; T; 256] -> shape instruction = [B; 128] -> wf instruction ->
  Fusion.forward self visual instruction
  = Ok (Tensor [B; T; 384]
         (flat_map (fun i =>
            slice i 256 (data visual)
            ++ slice i 128 (flat_map (fun r => concat (repeat r T))
                                     (rows 128 B (data instruction))))
            (seq 0 (B * T)))).
Proof.
  intros Hv Hi Hwf. destruct visual as [sv dv], instruction as [si di].
  unfold wf in Hwf. cbn [shape data] in *. subst sv si.
  unfold Fusion.forward, size.
  cbn [getitem nth_error bind shape data].
  unfold unsqueeze. cbn [shape length Nat.leb firstn skipn app data bind].
  unfold expand. cbn [shape length Nat.ltb Nat.leb Nat.sub repeat app expandable data].
  rewrite !Nat.eqb_refl. cbn [orb andb]. rewrite orb_true_r. cbn [andb bind].
  unfold torch.cat_last. cbn [shape removelast forallb length Nat.eqb negb andb].
  rewrite shape_eqb_refl. cbn [andb map shape data flat_map app torch.last_size last].
  rewrite expand_data_cons_same.
  change (list_sum [256; 128]) with 384.
  change (numel [1; 128]) with 128.
  replace (numel [B; T]) with (B * T) by (cbn [numel fold_right]; lia).
  rewrite (flat_map_ext_on (expand_data [1; 128] [T; 128])
                           (fun r => concat (repeat r T))).
  - do 2 f_equal. apply flat_map_ext. intros i. now rewrite app_nil_r.
  - intros r Hr. apply (expand_data_row [128]).
    apply (rows_In_length 128 B di); [|assumption].
    rewrite Hwf. cbn [numel fold_right]. lia.
Qed.

(** C4: on visual features of shape [(B, T, 256)] and instruction
    features of shape [(B, 128)], [Fusion.forward] returns a tensor of shape
    [(B, T, 384)]; for every batch element [b] and timestep [t] the first
    256 features of the output are the visual features at [(b, t)] and the
    last 128 are the instruction features of [b], unchanged; the module has
    no parameters. *)
Theorem fusion_concatenates (self : Fusion.t) (visual instruction : tensor A)
  (B T : nat) :
  shape visual = [B; T; 256] -> wf visual ->
  shape instruction = [B; 128] -> wf instruction ->
  exists out,
    Fusion.forward self visual instruction = Ok out
    /\ shape out = [B; T; 384] /\ wf out
    /\ (forall b t, b < B -> t < T ->
          firstn 256 (slice (b * T + t) 384 (data out))
          = slice (b * T + t) 256 (data visual)
          /\ skipn 256 (slice (b * T + t) 384 (data out))
             = slice b 128 (data instruction))
    /\ Fusion.parameters (A := A) self = [].
Proof.
  intros Hv Hwfv Hi Hwfi.
  rewrite (Fusion_forward_eq self visual instruction B T Hv Hi Hwfi).
  unfold wf in *. rewrite Hv in Hwfv. rewrite Hi in Hwfi.
  cbn [numel fold_right] in Hwfv, Hwfi.
  set (expanded := flat_map (fun r => concat (repeat r T))
                            (rows 128 B (data instruction))).
  assert (Hrow : forall r, In r (rows 128 B (data instruction)) ->
                   length (concat (repeat r T)) = T * 128).
  { intros r Hr. rewrite concat_repeat_length.
    rewrite (rows_In_length 128 B (data instruction) r); [reflexivity | lia | assumption]. }
  assert (Hexp : length expanded = B * (T * 128)).
  { unfold expanded. rewrite (flat_map_const_length _ (T * 128)) by assumption.
    now rewrite rows_length. }
  assert (Hlen : forall i, In i (seq 0 (B * T)) ->
            length (slice i 256 (data visual) ++ slice i 128 expanded) = 384).
  { intros i Hin. apply in_seq in Hin. rewrite length_app, !slice_length by nia.
    reflexivity. }
  eexists. split; [reflexivity|]. split; [reflexivity|]. split; [|split].
  - cbn [shape data numel fold_right].
    rewrite (flat_map_const_length _ 384) by assumption.
    rewrite length_seq. lia.
  - intros b t Hb Ht. cbn [data].
    assert (Hbt : b * T + t < B * T) by nia.
    rewrite (slice_flat_map _ 384 _ 0 Hlen) by now rewrite length_seq.
    rewrite seq_nth by assumption. cbn [Nat.add].
    assert (Hl : length (slice (b * T + t) 256 (data visual)) = 256)
      by (apply slice_length; nia).
    split.
    + now apply firstn_app_exact.
    + rewrite skipn_app_exact by assumption.
      rewrite <- (slice_slice b t 128 T) by assumption.
      unfold expanded.
      rewrite (slice_flat_map _ (T * 128) _ [] Hrow) by now rewrite rows_length.
      rewrite rows_nth by assumption.
      apply slice_concat_repeat; [|assumption].
      apply slice_length. nia.
  - reflexivity.
Qed.
End FusionFacts.

Lemma fusion_concatenates_witness :
  let visual := Tensor [2; 3; 256] (repeat 0%Z (2 * 3 * 256)) in
  let instruction := Tensor [2; 128] (repeat 1%Z (2 * 128)) in
  exists out,
    Fusion.forward Fusion.init visual instruction = Ok out
    /\ shape out = [2; 3; 384] /\ wf out
    /\ (forall b t, b < 2 -> t < 3 ->
          firstn 256 (slice (b * 3 + t) 384 (data out))
          = slice (b * 3 + t) 256 (data visual)
          /\ skipn 256 (slice (b * 3 + t) 384 (data out))
             = slice b 128 (data instruction))
    /\ Fusion.parameters (A := Z) Fusion.init = [].
Proof.
  intros visual instruction.
  apply (fusion_concatenates Fusion.init visual instruction 2 3);
    reflexivity.
Defined.

(* ================================================================= *)
(** ** Views *)

Lemma filter_infer_known (s : list nat) : filter is_infer (map D s) = [].
Proof. induction s as [|n s IH]; [reflexivity | exact IH]. Qed.

Lemma known_numel (s : list nat) : known (map D s) = numel s.
Proof. induction s as [|n s IH]; [reflexivity|]. cbn [map known fold_right numel].
  fold (known (map D s)). fold (numel s). now rewrite IH. Qed.

Lemma resolve_known (k : nat) (s : list nat) : map (resolve k) (map D s) = s.
Proof. rewrite map_map. apply map_id. Qed.

Lemma view_known {A : Type} (t : tensor A) (s : list nat) :
  numel (shape t) = numel s -> view t (map D s) = Ok (Tensor s (data t)).
Proof.
  intros H. unfold view. rewrite filter_infer_known, known_numel, resolve_known.
  cbn [length]. now rewrite H, Nat.eqb_refl.
Qed.

Lemma view_known_mismatch {A : Type} (t : tensor A) (s : list nat) :
  numel (shape t) <> numel s -> view t (map D s) = Raise RuntimeError.
Proof.
  intros H. unfold view. rewrite filter_infer_known, known_numel.
  cbn [length]. now destruct (Nat.eqb_spec (numel (shape t)) (numel s)).
Qed.

Lemma view_infer_last {A : Type} (t : tensor A) (s : list nat) (m : nat) :
  numel s <> 0 -> numel (shape t) = m * numel s ->
  view t (map D s ++ [Infer]) = Ok (Tensor (s ++ [m]) (data t)).
Proof.
  intros Hs H. unfold view.
  assert (Hk : known (map D s ++ [Infer]) = numel s).
  { clear. induction s as [|n s IH]; [reflexivity|].
    cbn [map app known fold_right numel] in *. 
    fold (known (map D s ++ [Infer])). fold (numel s). now rewrite IH. }
  rewrite filter_app, filter_infer_known, Hk. cbn [filter is_infer app length].
  destruct (Nat.eqb_spec (numel s) 0) as [E|_]; [contradiction|].
  rewrite H, Nat.Div0.mod_mul, Nat.div_mul by assumption. cbn [Nat.eqb].
  rewrite map_app, resolve_known. reflexivity.
Qed.

Lemma map_flat_map {T U V : Type} (g : U -> V) (f : T -> list U) (l : list T) :
  map g (flat_map f l) = flat_map (fun x => map g (f x)) l.
Proof.
  induction l as [|x l IH]; [reflexivity|].
  cbn [flat_map]. now rewrite map_app, IH.
Qed.

Lemma rows_flat_map {T U : Type} (f : T -> list U) (m N : nat) (l : list T) :
  length l = N -> (forall x, In x l -> length (f x) = m) ->
  rows m N (flat_map f l) = map f l.
Proof.
  intros <- Hf. destruct l as [|x0 l0] eqn:El; [reflexivity|]. rewrite <- El in *.
  assert (Hl : l <> []) by (rewrite El; discriminate). clear El.
  unfold rows. apply nth_ext with (d := []) (d' := f x0).
  - now rewrite !length_map, length_seq.
  - intros i Hi. rewrite length_map, length_seq in Hi.
    rewrite (nth_indep _ [] (slice 0 m (flat_map f l)))
      by now rewrite length_map, length_seq.
    rewrite (map_nth (fun j => slice j m (flat_map f l)) (seq 0 (length l)) 0 i).
    rewrite seq_nth by assumption. cbn [Nat.add].
    rewrite (slice_flat_map f m l x0 Hf i Hi).
    symmetry. apply (map_nth f l x0 i).
Qed.

Lemma flat_map_rows_flat_map {T U V : Type} (g : list U -> list V)
  (f : T -> list U) (m N : nat) (l : list T) :
  length l = N -> (forall x, In x l -> length (f x) = m) ->
  flat_map g (rows m N (flat_map f l)) = flat_map (fun x => g (f x)) l.
Proof.
  intros HN Hf. rewrite (rows_flat_map f m N l HN Hf).
  rewrite !flat_map_concat_map, map_map. reflexivity.
Qed.

(* ================================================================= *)
(** ** Layers *)

Section LayerFacts.
Context {A : Type} {SA : Scalar A}.

Lemma conv_sample_length (self : @Conv2d.t A) (H W : nat) (x : list A) :
  length (Conv2d.conv_sample self H W x)
  = Conv2d.out_channels self * (Conv2d.out_size self H * Conv2d.out_size self W).
Proof.
  unfold Conv2d.conv_sample.
  rewrite (flat_map_const_length _ (Conv2d.out_size self H * Conv2d.out_size self W)).
  - now rewrite length_seq.
  - intros o _. rewrite (flat_map_const_length _ (Conv2d.out_size self W)).
    + now rewrite length_seq.
    + intros i _. now rewrite length_map, length_seq.
Qed.

Lemma Conv2d_forward_ok (self : @Conv2d.t A) (N H W : nat) (d : list A) :
  Conv2d.stride self <> 0 ->
  Conv2d.kernel_size self <= H -> Conv2d.kernel_size self <= W ->
  Conv2d.forward self (Tensor [N; Conv2d.in_channels self; H; W] d)
  = Ok (Tensor [N; Conv2d.out_channels self;
                Conv2d.out_size self H; Conv2d.out_size self W]
          (flat_map (Conv2d.conv_sample self H W)
                    (rows (Conv2d.in_channels self * H * W) N d))).
Proof.
  intros Hs HH HW. unfold Conv2d.forward. cbn [shape data].
  rewrite Nat.eqb_refl. cbn [negb].
  destruct (Nat.eqb_spec (Conv2d.stride self) 0) as [E|_]; [contradiction|].
  destruct (Nat.ltb_spec H (Conv2d.kernel_size self)); [lia|].
  destruct (Nat.ltb_spec W (Conv2d.kernel_size self)); [lia|].
  reflexivity.
Qed.

Lemma apply_row_length (self : @Linear.t A) (x : list A) :
  length (Linear.apply_row self x) = Linear.out_features self.
Proof.
  unfold Linear.apply_row, linear_row. now rewrite length_map, length_seq.
Qed.

Lemma Linear_forward_ok (self : @Linear.t A) (lead : list nat) (d : list A) :
  Linear.forward self (Tensor (lead ++ [Linear.in_features self]) d)
  = Ok (Tensor (lead ++ [Linear.out_features self])
          (flat_map (Linear.apply_row self)
                    (rows (Linear.in_features self) (numel lead) d))).
Proof.
  unfold Linear.forward. cbn [shape data].
  rewrite rev_unit, Nat.eqb_refl, rev_involutive. reflexivity.
Qed.

Lemma Linear_forward_mismatch (self : @Linear.t A) (lead : list nat) (n : nat)
  (d : list A) :
  n <> Linear.in_features self ->
  Linear.forward self (Tensor (lead ++ [n]) d) = Raise RuntimeError.
Proof.
  intros H. unfold Linear.forward. cbn [shape data]. rewrite rev_unit.
  now destruct (Nat.eqb_spec n (Linear.in_features self)).
Qed.

End LayerFacts.

(* ================================================================= *)
(** ** VisualEncoder *)

Section VisualEncoderFacts.
Context {A : Type} {SA : Scalar A} {AA : Activation A}.
Variables w1 b1 w2 b2 w3 b3 wl bl : list A.

Local Notation "'enc'" := (VisualEncoder.init w1 b1 w2 b2 w3 b3 wl bl) (only parsing).
Local Notation "'c1'" := (Conv2d.init 3 32 8 4 w1 b1) (only parsing).
Local Notation "'c2'" := (Conv2d.init 32 64 4 2 w2 b2) (only parsing).
Local Notation "'c3'" := (Conv2d.init 64 64 3 1 w3 b3) (only parsing).
Local Notation "'lin'" := (Linear.init (64 * 7 * 7) 256 wl bl) (only parsing).

Lemma encode_frame_length (frame : list A) :
  length (VisualEncoder.encode_frame enc frame) = 256.
Proof.
  unfold VisualEncoder.encode_frame. rewrite length_map.
  apply apply_row_length.
Qed.

(** Whatever the axes after the first two are called, an image tensor with
    [3 * 84 * 84] elements per frame is encoded frame by frame. *)
Lemma VisualEncoder_forward_eq (img : tensor A) (B T : nat) (rest : list nat) :
  shape img = B :: T :: rest -> B * T <> 0 -> numel rest = 3 * 84 * 84 ->
  VisualEncoder.forward enc img
  = Ok (Tensor [B; T; 256]
          (flat_map (VisualEncoder.encode_frame enc)
                    (rows (3 * 84 * 84) (B * T) (data img)))).
Proof.
  intros Hs HN Hrest.
  unfold VisualEncoder.forward, size. rewrite Hs.
  cbn [getitem nth_error bind VisualEncoder.conv1 VisualEncoder.conv2
       VisualEncoder.conv3 VisualEncoder.linear VisualEncoder.init].
  set (N := B * T) in *.
  set (rows0 := rows (3 * 84 * 84) N (data img)).
  assert (Hrows0 : length rows0 = N) by apply rows_length.
  (* the frames *)
  change [D N; D 3; D 84; D 84] with (map D [N; 3; 84; 84]).
  rewrite view_known
    by (rewrite Hs; cbn [numel fold_right]; fold (numel rest);
        rewrite Hrest; subst N; lia).
  cbn [bind].
  (* first convolution *)
  assert (E1 : forall d, Conv2d.forward c1 (Tensor [N; 3; 84; 84] d)
            = Ok (Tensor [N; 32; 20; 20]
                    (flat_map (Conv2d.conv_sample c1 84 84)
                              (rows (3 * 84 * 84) N d)))).
  { intros d. apply (Conv2d_forward_ok c1 N 84 84 d); cbn; lia. }
  rewrite E1. cbn [bind]. unfold F.relu at 1. cbn [shape data].
  fold rows0. rewrite map_flat_map.
  (* second convolution *)
  assert (E2 : forall d, Conv2d.forward c2 (Tensor [N; 32; 20; 20] d)
            = Ok (Tensor [N; 64; 9; 9]
                    (flat_map (Conv2d.conv_sample c2 20 20)
                              (rows (32 * 20 * 20) N d)))).
  { intros d. apply (Conv2d_forward_ok c2 N 20 20 d); cbn; lia. }
  rewrite E2. cbn [bind]. unfold F.relu at 1. cbn [shape data].
  rewrite (flat_map_rows_flat_map _ _ (32 * 20 * 20) N rows0 Hrows0)
    by (intros x _; rewrite length_map, conv_sample_length; reflexivity).
  rewrite map_flat_map.
  (* third convolution *)
  assert (E3 : forall d, Conv2d.forward c3 (Tensor [N; 64; 9; 9] d)
            = Ok (Tensor [N; 64; 7; 7]
                    (flat_map (Conv2d.conv_sample c3 9 9)
                              (rows (64 * 9 * 9) N d)))).
  { intros d. apply (Conv2d_forward_ok c3 N 9 9 d); cbn; lia. }
  rewrite E3. cbn [bind]. unfold F.relu at 1. cbn [shape data].
  rewrite (flat_map_rows_flat_map _ _ (64 * 9 * 9) N rows0 Hrows0)
    by (intros x _; rewrite length_map, conv_sample_length; reflexivity).
  rewrite map_flat_map.
  (* flatten and project *)
  change [D N; Infer] with (map D [N] ++ [Infer]).
  rewrite (view_infer_last _ [N] (64 * 7 * 7))
    by (cbn [shape numel fold_right]; lia).
  cbn [bind data app].
  assert (E4 : forall d, Linear.forward lin (Tensor [N; 64 * 7 * 7] d)
            = Ok (Tensor [N; 256]
                    (flat_map (Linear.apply_row lin)
                              (rows (64 * 7 * 7) N d)))).
  { intros d. rewrite <- (Nat.mul_1_r N) at 3.
    apply (Linear_forward_ok lin [N] d). }
  rewrite E4. cbn [bind]. unfold F.relu. cbn [shape data].
  rewrite (flat_map_rows_flat_map _ _ (64 * 7 * 7) N rows0 Hrows0)
    by (intros x _; rewrite length_map, conv_sample_length; reflexivity).
  rewrite map_flat_map.
  (* back to batch and time *)
  change [D B; D T; Infer] with (map D [B; T] ++ [Infer]).
  rewrite (view_infer_last _ [B; T] 256)
    by (cbn [shape numel fold_right]; subst N; lia).
  reflexivity.
Qed.

(** C5: for every batch size [B >= 1] and timestep count [T >= 1],
    [VisualEncoder.forward] applied to an image tensor of shape
    [(B, T, 3, 84, 84)] returns a tensor of shape [(B, T, 256)], and the
    256 features at [(b, t)] are a function of the frame at [(b, t)] alone:
    nothing is carried from one timestep to another. *)
Theorem visual_encoder_shape (img : tensor A) (B T : nat) :
  1 <= B -> 1 <= T ->
  shape img = [B; T; 3; 84; 84] -> wf img ->
  exists out,
    VisualEncoder.forward enc img = Ok out
    /\ shape out = [B; T; 256] /\ wf out
    /\ forall b t, b < B -> t < T ->
         slice (b * T + t) 256 (data out)
         = VisualEncoder.encode_frame enc
             (slice (b * T + t) (3 * 84 * 84) (data img)).
Proof.
  intros HB HT Hs _.
  rewrite (VisualEncoder_forward_eq img B T [3; 84; 84] Hs)
    by (try reflexivity; nia).
  eexists. split; [reflexivity|]. split; [reflexivity|]. split.
  - unfold wf. cbn [shape data numel fold_right].
    rewrite (flat_map_const_length _ 256)
      by (intros x _; apply encode_frame_length).
    rewrite rows_length. lia.
  - intros b t Hb Ht. cbn [data].
    assert (Hbt : b * T + t < B * T) by nia.
    rewrite (slice_flat_map _ 256 _ [] (fun x _ => encode_frame_length x))
      by now rewrite rows_length.
    now rewrite rows_nth.
Qed.

(** C2, amended: an input [(B, T, ...)] with [B, T >= 1] whose number of
    elements per frame differs from [3 * 84 * 84] makes
    [VisualEncoder.forward] fail at once with the shape-mismatch error of
    its first [view]; an input with that many elements per frame is
    accepted whatever its per-frame axes are, its storage being read as
    [(B * T, 3, 84, 84)] frames. *)
Theorem visual_encoder_checks_numel (img : tensor A) (B T : nat) (rest : list nat) :
  shape img = B :: T :: rest -> 1 <= B -> 1 <= T ->
  (numel rest <> 3 * 84 * 84 ->
     VisualEncoder.forward enc img = Raise RuntimeError)
  /\ (numel rest = 3 * 84 * 84 ->
       VisualEncoder.forward enc img
       = Ok (Tensor [B; T; 256]
               (flat_map (VisualEncoder.encode_frame enc)
                         (rows (3 * 84 * 84) (B * T) (data img))))).
Proof.
  intros Hs HB HT. split; intros Hrest.
  - unfold VisualEncoder.forward, size. rewrite Hs.
    cbn [getitem nth_error bind].
    change [D (B * T); D 3; D 84; D 84] with (map D [B * T; 3; 84; 84]).
    rewrite view_known_mismatch; [reflexivity|].
    rewrite Hs. cbn [numel fold_right]. fold (numel rest).
    intros E. apply Hrest.
    assert (E' : (B * T) * numel rest = (B * T) * (3 * 84 * 84)) by lia.
    apply Nat.mul_cancel_l in E'; [assumption | nia].
  - apply (VisualEncoder_forward_eq img B T rest Hs); [nia | assumption].
Qed.

End VisualEncoderFacts.

Lemma visual_encoder_shape_witness :
  let img := Tensor [1; 2; 3; 84; 84] (repeat 0%R (1 * 2 * 3 * 84 * 84)) in
  exists out,
    VisualEncoder.forward zero_weights img = Ok out
    /\ shape out = [1; 2; 256] /\ wf out
    /\ forall b t, b < 1 -> t < 2 ->
         slice (b * 2 + t) 256 (data out)
         = VisualEncoder.encode_frame zero_weights
             (slice (b * 2 + t) (3 * 84 * 84) (data img)).
Proof.
  intros img.
  apply (visual_encoder_shape _ _ _ _ _ _ _ _ img 1 2).
  - lia.
  - lia.
  - reflexivity.
  - unfold wf, img. cbn [shape data]. rewrite repeat_length. reflexivity.
Defined.

Lemma visual_encoder_checks_numel_witness :
  let img := Tensor [1; 2; 3; 84; 85] (repeat 0%R (1 * 2 * 3 * 84 * 85)) in
  (numel [3; 84; 85] <> 3 * 84 * 84 ->
     VisualEncoder.forward zero_weights img = Raise RuntimeError)
  /\ (numel [3; 84; 85] = 3 * 84 * 84 ->
       VisualEncoder.forward zero_weights img
       = Ok (Tensor [1; 2; 256]
               (flat_map (VisualEncoder.encode_frame zero_weights)
                         (rows (3 * 84 * 84) (1 * 2) (data img))))).
Proof.
  intros img.
  apply (visual_encoder_checks_numel _ _ _ _ _ _ _ _ img 1 2 [3; 84; 85]).
  - reflexivity.
  - lia.
  - lia.
Defined.

(** C2, the claim as stated fails: frames given channels-last, as
    [(84, 84, 3)], are not rejected. *)
Lemma channels_last_accepted :
  let img := Tensor [1; 1; 84; 84; 3] (repeat 0%R (84 * 84 * 3)) in
  wf img
  /\ skipn 2 (shape img) <> [3; 84; 84]
  /\ exists out,
       VisualEncoder.forward zero_weights img = Ok out
       /\ shape out = [1; 1; 256].
Proof.
  intros img. split; [|split].
  - unfold wf, img. cbn [shape data]. rewrite repeat_length. reflexivity.
  - cbn [img shape skipn]. intros H. inversion H.
  - eexists. split.
    + apply (VisualEncoder_forward_eq _ _ _ _ _ _ _ _ img 1 1 [84; 84; 3]);
        [reflexivity | discriminate | reflexivity].
    + reflexivity.
Qed.

(* ================================================================= *)
(** ** TimeEncoder *)

Lemma firstn_repeat_le {T : Type} (x : T) (n m : nat) :
  n <= m -> firstn n (repeat x m) = repeat x n.
Proof.
  revert m. induction n as [|n IH]; intros m H; [reflexivity|].
  destruct m as [|m]; [lia|]. cbn [repeat firstn]. f_equal. apply IH. lia.
Qed.

Lemma map_const_seq {T : Type} (x : T) (s k : nat) :
  map (fun _ => x) (seq s k) = repeat x k.
Proof.
  revert s. induction k as [|k IH]; intros s; [reflexivity|].
  cbn [seq map repeat]. now rewrite IH.
Qed.

Lemma rows_concat_repeat {T : Type} (r : list T) (n B : nat) :
  length r = n -> rows n B (concat (repeat r B)) = map (fun _ => r) (seq 0 B).
Proof.
  intros Hr. unfold rows. apply map_ext_in. intros i Hi. apply in_seq in Hi.
  apply slice_concat_repeat; [assumption | lia].
Qed.

Lemma combine_seq_map {T : Type} (f : nat -> T) (l : list nat) :
  combine l (map f l) = map (fun b => (b, f b)) l.
Proof. induction l as [|x l IH]; [reflexivity|]. cbn [map combine]. now rewrite IH. Qed.

Section LSTMFacts.
Context {A : Type} {SA : Scalar A} {AA : Activation A}.

Lemma vmul_length (x y : list A) :
  length (vmul x y) = Nat.min (length x) (length y).
Proof. unfold vmul. now rewrite length_map, length_combine. Qed.

Lemma linear_row_length (w b : list A) (n_in n_out : nat) (x : list A) :
  length (linear_row w b n_in n_out x) = n_out.
Proof. unfold linear_row. now rewrite length_map, length_seq. Qed.

(** The cell keeps the width of the state. *)
Lemma LSTMCell_length (self : @LSTM.t A) (x : list A) (hc : list A * list A) :
  length (snd hc) = LSTM.hidden_size self ->
  length (fst (LSTM.LSTMCell self x hc)) = LSTM.hidden_size self
  /\ length (snd (LSTM.LSTMCell self x hc)) = LSTM.hidden_size self.
Proof.
  intros Hc. unfold LSTM.LSTMCell. cbn [fst snd].
  set (n := LSTM.hidden_size self) in *.
  set (gates := vadd _ _).
  assert (Hg : length gates = 4 * n).
  { unfold gates. rewrite vadd_length, !linear_row_length. apply Nat.min_id. }
  assert (Hs : forall i, i < 4 -> length (slice i n gates) = n).
  { intros i Hi. apply slice_length. rewrite Hg. nia. }
  rewrite !vmul_length, !vadd_length, !vmul_length, !length_map, !vadd_length,
    !vmul_length, !length_map, Hc, !Hs by lia.
  lia.
Qed.

(** The batch of states after the steps [ts], row by row. *)
Lemma Recurrent_rows (self : @LSTM.t A) (B T : nat) (x : list A) (ts : list nat) :
  forall (f : nat -> list A * list A) (outs : list (list (list A))),
    fst (fold_left (LSTM.step self B T x) ts (map f (seq 0 B), outs))
    = map (fun b =>
             fold_left (fun hc s =>
                          LSTM.LSTMCell self (LSTM.input_at self B T x s b) hc)
                       ts (f b))
          (seq 0 B).
Proof.
  induction ts as [|s ts IH]; intros f outs; [reflexivity|].
  cbn [fold_left]. unfold LSTM.step at 2. cbn [fst snd].
  rewrite combine_seq_map, map_map. cbn [fst snd].
  apply (IH (fun b => LSTM.LSTMCell self (LSTM.input_at self B T x s b) (f b))).
Qed.

End LSTMFacts.

Section TimeEncoderFacts.
Context {A : Type} {SA : Scalar A} {AA : Activation A}.
Variables w_ih w_hh b_ih b_hh : list A.

Local Notation "'enc'" := (TimeEncoder.init w_ih w_hh b_ih b_hh) (only parsing).

Lemma run_row_length (T : nat) (x : list A) (b : nat) :
  length (fst (TimeEncoder.run_row enc T x b)) = 256
  /\ length (snd (TimeEncoder.run_row enc T x b)) = 256.
Proof.
  unfold TimeEncoder.run_row.
  assert (H : forall ts hc, length (fst hc) = 256 -> length (snd hc) = 256 ->
            length (fst (fold_left (fun hc s =>
               LSTM.LSTMCell (TimeEncoder.lstm enc) (slice (b * T + s) 384 x) hc)
               ts hc)) = 256
            /\ length (snd (fold_left (fun hc s =>
               LSTM.LSTMCell (TimeEncoder.lstm enc) (slice (b * T + s) 384 x) hc)
               ts hc)) = 256).
  { induction ts as [|s ts IH]; intros hc Hh Hc; [now split|].
    cbn [fold_left]. apply IH; apply LSTMCell_length; exact Hc. }
  apply H; apply repeat_length.
Qed.

(** The zero state that [forward] builds, as the single layer receives it. *)
Lemma zero_state_rows (B : nat) :
  1 <= B ->
  exists h0 : tensor A,
    (first <- LSTM.first_slice (torch.zeros [B; 256]) ;; expand first [B; 256])
    = Ok h0
    /\ rows 256 B (data h0) = map (fun _ => repeat szero 256) (seq 0 B).
Proof.
  intros HB. unfold LSTM.first_slice, torch.zeros. cbn [shape data].
  destruct (Nat.eqb_spec B 0) as [E|_]; [lia|]. cbn [bind].
  unfold expand. cbn [shape length Nat.ltb Nat.leb Nat.sub].
  change (repeat 1 1 ++ [256]) with [1; 256]. cbn [expandable].
  rewrite !Nat.eqb_refl, orb_true_r. cbn [andb data].
  eexists. split; [reflexivity|]. cbn [data].
  rewrite firstn_repeat_le by (cbn [numel fold_right]; nia).
  rewrite (expand_data_row [256]) by apply repeat_length.
  change (numel [256]) with 256.
  apply rows_concat_repeat, repeat_length.
Qed.

Lemma TimeEncoder_forward_eq (fused : tensor A) (B T : nat) :
  1 <= B -> 1 <= T -> shape fused = [B; T; 384] ->
  TimeEncoder.forward enc fused
  = Ok (Tensor [B; 256]
          (flat_map (fun b => fst (TimeEncoder.run_row enc T (data fused) b))
                    (seq 0 B))).
Proof.
  intros HB HT Hs.
  unfold TimeEncoder.forward, size. rewrite Hs.
  cbn [getitem nth_error bind TimeEncoder.hidden_size TimeEncoder.lstm
       TimeEncoder.init].
  unfold LSTM.forward. rewrite Hs.
  cbn [LSTM.batch_first LSTM.input_size LSTM.hidden_size LSTM.init fst snd].
  rewrite Nat.eqb_refl. cbn [negb].
  destruct (Nat.eqb_spec T 0) as [E|_]; [lia|].
  destruct (zero_state_rows B HB) as [h0 [Eh0 Hrows]].
  destruct (LSTM.first_slice (torch.zeros [B; 256])) as [first|e];
    [|discriminate Eh0].
  cbn [bind] in Eh0 |- *. rewrite Eh0. cbn [bind].
  rewrite Hrows, combine_map_same.
  unfold LSTM.Recurrent. rewrite Recurrent_rows.
  unfold squeeze. cbn [shape nth_error firstn skipn app data fst].
  rewrite map_map, <- flat_map_concat_map.
  reflexivity.
Qed.

(** C1: for every batch size [B >= 1] and timestep count [T >= 1],
    [TimeEncoder.forward] applied to a fused sequence of shape
    [(B, T, 384)] returns a tensor of shape [(B, 256)] whose row [b] is
    the final hidden state of the single-layer LSTM cell run over the [T]
    steps of row [b], from hidden and cell state zero, both of width 256. *)
Theorem time_encoder_final_hidden (fused : tensor A) (B T : nat) :
  1 <= B -> 1 <= T ->
  shape fused = [B; T; 384] -> wf fused ->
  exists out,
    TimeEncoder.forward enc fused = Ok out
    /\ shape out = [B; 256] /\ wf out
    /\ forall b, b < B ->
         slice b 256 (data out)
         = fst (TimeEncoder.run_row enc T (data fused) b)
         /\ length (snd (TimeEncoder.run_row enc T (data fused) b)) = 256.
Proof.
  intros HB HT Hs _.
  rewrite (TimeEncoder_forward_eq fused B T HB HT Hs).
  assert (Hlen : forall b, In b (seq 0 B) ->
            length (fst (TimeEncoder.run_row enc T (data fused) b)) = 256)
    by (intros b _; apply run_row_length).
  eexists. split; [reflexivity|]. split; [reflexivity|]. split.
  - unfold wf. cbn [shape data numel fold_right].
    rewrite (flat_map_const_length _ 256 _ Hlen), length_seq. lia.
  - intros b Hb. cbn [data]. split; [|apply run_row_length].
    rewrite (slice_flat_map _ 256 _ 0 Hlen) by now rewrite length_seq.
    now rewrite seq_nth.
Qed.

End TimeEncoderFacts.

Section TimeEncoderCalls.
Context {A : Type} {SA : Scalar A} {AA : Activation A}.


End TimeEncoderCalls.

Lemma time_encoder_final_hidden_witness :
  let fused := Tensor [2; 3; 384] (repeat 0%R (2 * 3 * 384)) in
  exists out,
    TimeEncoder.forward zero_time_encoder fused = Ok out
    /\ shape out = [2; 256] /\ wf out
    /\ forall b, b < 2 ->
         slice b 256 (data out)
         = fst (TimeEncoder.run_row zero_time_encoder 3 (data fused) b)
         /\ length (snd (TimeEncoder.run_row zero_time_encoder 3 (data fused) b))
            = 256.
Proof.
  intros fused.
  apply (time_encoder_final_hidden _ _ _ _ fused 2 3).
  - lia.
  - lia.
  - reflexivity.
  - reflexivity.
Defined.

(* ================================================================= *)
(** ** The policy heads *)

(** *** The normalised exponential at the real numbers *)

Lemma ssum_R_cons (x : R) (l : list R) : ssum (x :: l) = (x + ssum l)%R.
Proof. exact (ssum_cons x l). Qed.

Lemma ssum_R_pos (l : list R) :
  l <> [] -> Forall (fun x => 0 < x)%R l -> (0 < ssum l)%R.
Proof.
  intros Hl H. induction H as [|x l Hx Hall IH]; [contradiction|].
  rewrite ssum_R_cons. destruct l as [|y l].
  - unfold ssum. simpl. lra.
  - assert (0 < ssum (y :: l))%R by (apply IH; discriminate). lra.
Qed.

Lemma ssum_R_scale (c : R) (l : list R) :
  ssum (map (fun x => x / c)%R l) = (ssum l / c)%R.
Proof.
  induction l as [|x l IH].
  - unfold ssum. simpl. lra.
  - cbn [map]. rewrite !ssum_R_cons, IH. lra.
Qed.

Lemma softmax_row_distribution (r : list R) :
  r <> [] -> distribution (F.softmax_row r).
Proof.
  intros Hr. unfold F.softmax_row, distribution. cbn [sexp sdiv Activation_R].
  set (e := map exp r).
  assert (He : Forall (fun x => 0 < x)%R e).
  { unfold e. apply Forall_forall. intros x Hx. apply in_map_iff in Hx.
    destruct Hx as [y [<- _]]. apply exp_pos. }
  assert (Hne : e <> []) by (unfold e; destruct r; [contradiction | discriminate]).
  pose proof (ssum_R_pos e Hne He) as Hpos.
  split.
  - apply Forall_forall. intros p Hp. apply in_map_iff in Hp.
    destruct Hp as [x [<- Hx]]. rewrite Forall_forall in He.
    specialize (He x Hx). apply Rlt_le. now apply Rdiv_lt_0_compat.
  - rewrite ssum_R_scale. field. lra.
Qed.

Section HeadFacts.
Context {A : Type} {SA : Scalar A} {AA : Activation A}.

(** A linear projection of the summary vectors followed by the normalised
    exponential along the last axis. *)
Lemma head_rows (l : @Linear.t A) (x : tensor A) (B : nat) :
  Linear.in_features l = 256 -> shape x = [B; 256] ->
  exists logits,
    Linear.forward l x = Ok logits
    /\ shape (F.softmax_last logits) = [B; Linear.out_features l]
    /\ wf (F.softmax_last logits)
    /\ forall b, b < B ->
         slice b (Linear.out_features l) (data (F.softmax_last logits))
         = F.softmax_row (Linear.apply_row l (slice b 256 (data x))).
Proof.
  intros Hin Hs. destruct x as [s d]. cbn [shape data] in *. subst s.
  assert (E : Linear.forward l (Tensor [B; 256] d)
              = Ok (Tensor [B; Linear.out_features l]
                      (flat_map (Linear.apply_row l) (rows 256 B d)))).
  { rewrite <- Hin. rewrite <- (Nat.mul_1_r B) at 3.
    apply (Linear_forward_ok l [B] d). }
  rewrite E. eexists. split; [reflexivity|].
  unfold F.softmax_last. cbn [shape rev app data numel fold_right].
  rewrite Nat.mul_1_r.
  rewrite (flat_map_rows_flat_map _ _ (Linear.out_features l) B)
    by (try apply rows_length; intros r _; apply apply_row_length).
  assert (Hlen : forall r, In r (rows 256 B d) ->
            length (F.softmax_row (Linear.apply_row l r)) = Linear.out_features l).
  { intros r _. unfold F.softmax_row. rewrite !length_map.
    apply apply_row_length. }
  split; [reflexivity|]. split.
  - unfold wf. cbn [shape data numel fold_right].
    rewrite (flat_map_const_length _ _ _ Hlen), rows_length. lia.
  - intros b Hb.
    rewrite (slice_flat_map _ _ _ [] Hlen) by now rewrite rows_length.
    now rewrite rows_nth.
Qed.

End HeadFacts.

Lemma head_distribution (l : @Linear.t R) (x : tensor R) (B : nat) :
  Linear.in_features l = 256 -> 1 <= Linear.out_features l ->
  shape x = [B; 256] ->
  exists logits,
    Linear.forward l x = Ok logits
    /\ shape (F.softmax_last logits) = [B; Linear.out_features l]
    /\ wf (F.softmax_last logits)
    /\ forall b, b < B ->
         slice b (Linear.out_features l) (data (F.softmax_last logits))
         = F.softmax_row (Linear.apply_row l (slice b 256 (data x)))
         /\ distribution
              (slice b (Linear.out_features l) (data (F.softmax_last logits))).
Proof.
  intros Hin Hout Hs.
  destruct (head_rows l x B Hin Hs) as [logits [E [Hshape [Hwf Hrows]]]].
  exists logits. split; [assumption|]. split; [assumption|].
  split; [assumption|]. intros b Hb. split; [now apply Hrows|].
  rewrite (Hrows b Hb). apply softmax_row_distribution.
  intros E'. apply (f_equal (@length R)) in E'.
  rewrite apply_row_length in E'. cbn [length] in E'. lia.
Qed.

(** C3: on summary vectors of shape [(B, 256)] every policy head returns,
    for every batch element, a vector without negative entry whose entries
    add up to one along the last axis (at the real numbers, and for heads
    with at least one outcome).  [InstructionPolicy] returns two such
    tensors, of shapes [(B, num_instructions)] and [(B, num_objects)]; each
    is the normalised exponential of its own linear projection of the
    summary vector, with its own weights. *)
Theorem policy_heads_distributions (ws bs wi bi wo bo wa ba : list R)
  (num_instructions num_objects num_actions : nat) (x : tensor R) (B : nat) :
  1 <= num_instructions -> 1 <= num_objects -> 1 <= num_actions ->
  shape x = [B; 256] -> wf x ->
  (exists switch,
     SwitchPolicy.forward (SwitchPolicy.init ws bs) x = Ok switch
     /\ shape switch = [B; 2] /\ wf switch
     /\ forall b, b < B -> distribution (slice b 2 (data switch)))
  /\ (exists instruction_probs object_probs,
       InstructionPolicy.forward
         (InstructionPolicy.init num_instructions num_objects wi bi wo bo) x
       = Ok (instruction_probs, object_probs)
       /\ shape instruction_probs = [B; num_instructions]
       /\ shape object_probs = [B; num_objects]
       /\ wf instruction_probs /\ wf object_probs
       /\ forall b, b < B ->
            distribution (slice b num_instructions (data instruction_probs))
            /\ distribution (slice b num_objects (data object_probs))
            /\ slice b num_instructions (data instruction_probs)
               = F.softmax_row
                   (linear_row wi bi 256 num_instructions (slice b 256 (data x)))
            /\ slice b num_objects (data object_probs)
               = F.softmax_row
                   (linear_row wo bo 256 num_objects (slice b 256 (data x))))
  /\ (exists action_probs,
       AugmentedPolicy.forward (AugmentedPolicy.init num_actions wa ba) x
       = Ok action_probs
       /\ shape action_probs = [B; num_actions] /\ wf action_probs
       /\ forall b, b < B ->
            distribution (slice b num_actions (data action_probs))).
Proof.
  intros Hi Ho Ha Hs _.
  destruct (head_distribution (Linear.init 256 2 ws bs) x B eq_refl
              (le_S _ _ (le_n 1)) Hs) as [ls [Es [Hss [Hws Hds]]]].
  destruct (head_distribution (Linear.init 256 num_instructions wi bi) x B
              eq_refl Hi Hs) as [li [Ei [Hsi [Hwi Hdi]]]].
  destruct (head_distribution (Linear.init 256 num_objects wo bo) x B
              eq_refl Ho Hs) as [lo [Eo [Hso [Hwo Hdo]]]].
  destruct (head_distribution (Linear.init 256 num_actions wa ba) x B
              eq_refl Ha Hs) as [la [Ea [Hsa [Hwa Hda]]]].
  cbn [Linear.out_features Linear.init] in *.
  split; [|split].
  - exists (F.softmax_last ls). unfold SwitchPolicy.forward.
    cbn [SwitchPolicy.linear SwitchPolicy.init]. rewrite Es. cbn [bind].
    split; [reflexivity|]. split; [assumption|]. split; [assumption|].
    intros b Hb. apply (Hds b Hb).
  - exists (F.softmax_last li), (F.softmax_last lo).
    unfold InstructionPolicy.forward.
    cbn [InstructionPolicy.instruction_linear InstructionPolicy.object_linear
         InstructionPolicy.init].
    rewrite Ei, Eo. cbn [bind].
    split; [reflexivity|]. split; [assumption|]. split; [assumption|].
    split; [assumption|]. split; [assumption|].
    intros b Hb. destruct (Hdi b Hb) as [Ri Di], (Hdo b Hb) as [Ro Do].
    split; [assumption|]. split; [assumption|]. split; assumption.
  - exists (F.softmax_last la). unfold AugmentedPolicy.forward.
    cbn [AugmentedPolicy.linear AugmentedPolicy.init]. rewrite Ea. cbn [bind].
    split; [reflexivity|]. split; [assumption|]. split; [assumption|].
    intros b Hb. apply (Hda b Hb).
Qed.

Lemma policy_heads_distributions_witness :
  let x := Tensor [2; 256] (repeat 0%R (2 * 256)) in
  let w n := repeat 0%R (n * 256) in
  let b n := repeat 0%R n in
  (exists switch,
     SwitchPolicy.forward (SwitchPolicy.init (w 2) (b 2)) x = Ok switch
     /\ shape switch = [2; 2] /\ wf switch
     /\ forall i, i < 2 -> distribution (slice i 2 (data switch)))
  /\ (exists instruction_probs object_probs,
       InstructionPolicy.forward
         (InstructionPolicy.init 4 6 (w 4) (b 4) (w 6) (b 6)) x
       = Ok (instruction_probs, object_probs)
       /\ shape instruction_probs = [2; 4]
       /\ shape object_probs = [2; 6]
       /\ wf instruction_probs /\ wf object_probs
       /\ forall i, i < 2 ->
            distribution (slice i 4 (data instruction_probs))
            /\ distribution (slice i 6 (data object_probs))
            /\ slice i 4 (data instruction_probs)
               = F.softmax_row (linear_row (w 4) (b 4) 256 4 (slice i 256 (data x)))
            /\ slice i 6 (data object_probs)
               = F.softmax_row (linear_row (w 6) (b 6) 256 6 (slice i 256 (data x))))
  /\ (exists action_probs,
       AugmentedPolicy.forward (AugmentedPolicy.init 8 (w 8) (b 8)) x
       = Ok action_probs
       /\ shape action_probs = [2; 8] /\ wf action_probs
       /\ forall i, i < 2 -> distribution (slice i 8 (data action_probs))).
Proof.
  intros x w b.
  apply (policy_heads_distributions (w 2) (b 2) (w 4) (b 4) (w 6) (b 6)
           (w 8) (b 8) 4 6 8 x 2).
  - lia.
  - lia.
  - lia.
  - reflexivity.
  - reflexivity.
Defined.

(* ================================================================= *)
(** * Further properties of the modules *)

(** ** The stages composed, and the self-test *)

Section Pipeline.
Context {A : Type} {SA : Scalar A} {AA : Activation A}.

(** The instruction encoder on a well-formed batch of non-empty
    instructions, as a tensor. *)
Lemma InstructionEncoder_forward_eq (V : nat) (bow : bool) (w : list A)
  (x : tensor Z) (B L : nat) :
  length w = V * 128 -> shape x = [B; L] -> wf x -> 1 <= L ->
  Forall (token V) (data x) ->
  exists out,
    snd (InstructionEncoder.forward (InstructionEncoder.init V bow w) x) = Ok out
    /\ shape out = [B; 128] /\ wf out.
Proof.
  intros Hw Hs Hwf HL Htok.
  assert (Hrows : forall b, b < B -> Forall (token V) (slice b L (data x)))
    by (intros; now apply Forall_slice).
  eexists. split; [|split].
  - unfold InstructionEncoder.forward. cbn [snd InstructionEncoder.embeddings
      InstructionEncoder.init].
    apply (EmbeddingBag_forward_rows V w x B L Hs Hwf HL Hrows).
  - reflexivity.
  - unfold wf. cbn [data shape]. rewrite <- flat_map_concat_map.
    rewrite (flat_map_const_length _ 128), rows_length.
    + cbn [numel fold_right]. lia.
    + apply (row_sums_length V w x B L Hw Hrows).
Qed.

Lemma head_shape (l : @Linear.t A) (x : tensor A) (B : nat) :
  Linear.in_features l = 256 -> shape x = [B; 256] ->
  exists logits,
    Linear.forward l x = Ok logits
    /\ shape (F.softmax_last logits) = [B; Linear.out_features l].
Proof.
  intros Hin Hs.
  destruct (head_rows l x B Hin Hs) as [logits [E [Hshape _]]].
  exists logits. now split.
Qed.

(** The stages run one after the other. *)
Lemma stages_run
  (V num_instructions num_objects num_actions : nat) (bow : bool)
  (we w1 b1 w2 b2 w3 b3 wl bl w_ih w_hh b_ih b_hh
      ws bs wi bi wo bo wa ba : list A)
  (instruction : tensor Z) (img : tensor A) (B T L : nat) :
  1 <= B -> 1 <= T -> 1 <= L ->
  length we = V * 128 ->
  shape instruction = [B; L] -> wf instruction ->
  Forall (token V) (data instruction) ->
  shape img = [B; T; 3; 84; 84] ->
  exists ie ve fe te switch ip op ap,
    snd (InstructionEncoder.forward (InstructionEncoder.init V bow we) instruction)
    = Ok ie
    /\ VisualEncoder.forward (VisualEncoder.init w1 b1 w2 b2 w3 b3 wl bl) img
       = Ok ve
    /\ Fusion.forward Fusion.init ve ie = Ok fe
    /\ TimeEncoder.forward (TimeEncoder.init w_ih w_hh b_ih b_hh) fe = Ok te
    /\ SwitchPolicy.forward (SwitchPolicy.init ws bs) te = Ok switch
    /\ InstructionPolicy.forward
         (InstructionPolicy.init num_instructions num_objects wi bi wo bo) te
       = Ok (ip, op)
    /\ AugmentedPolicy.forward (AugmentedPolicy.init num_actions wa ba) te
       = Ok ap
    /\ shape ie = [B; 128] /\ shape ve = [B; T; 256]
    /\ shape fe = [B; T; 384] /\ shape te = [B; 256]
    /\ shape switch = [B; 2]
    /\ shape ip = [B; num_instructions] /\ shape op = [B; num_objects]
    /\ shape ap = [B; num_actions].
Proof.
  intros HB HT HL Hwe Hsi Hwfi Htok Hsimg.
  destruct (InstructionEncoder_forward_eq V bow we instruction B L
              Hwe Hsi Hwfi HL Htok) as [ie [Eie [Hsie Hwfie]]].
  pose proof (VisualEncoder_forward_eq w1 b1 w2 b2 w3 b3 wl bl img B T
                [3; 84; 84] Hsimg) as Eve.
  specialize (Eve ltac:(nia) eq_refl).
  set (ve := Tensor [B; T; 256] _) in Eve.
  pose proof (Fusion_forward_eq Fusion.init ve ie B T eq_refl Hsie Hwfie) as Efe.
  set (fe := Tensor [B; T; 384] _) in Efe.
  pose proof (TimeEncoder_forward_eq w_ih w_hh b_ih b_hh fe B T HB HT eq_refl)
    as Ete.
  set (te := Tensor [B; 256] _) in Ete.
  destruct (head_shape (Linear.init 256 2 ws bs) te B eq_refl eq_refl)
    as [ls [Els Hls]].
  destruct (head_shape (Linear.init 256 num_instructions wi bi) te B eq_refl eq_refl)
    as [li [Eli Hli]].
  destruct (head_shape (Linear.init 256 num_objects wo bo) te B eq_refl eq_refl)
    as [lo [Elo Hlo]].
  destruct (head_shape (Linear.init 256 num_actions wa ba) te B eq_refl eq_refl)
    as [la [Ela Hla]].
  exists ie, ve, fe, te, (F.softmax_last ls), (F.softmax_last li),
    (F.softmax_last lo), (F.softmax_last la).
  split; [exact Eie|]. split; [exact Eve|]. split; [exact Efe|].
  split; [exact Ete|].
  split. { unfold SwitchPolicy.forward.
           cbn [SwitchPolicy.linear SwitchPolicy.init]. now rewrite Els. }
  split. { unfold InstructionPolicy.forward.
           cbn [InstructionPolicy.instruction_linear
                InstructionPolicy.object_linear InstructionPolicy.init].
           now rewrite Eli, Elo. }
  split. { unfold AugmentedPolicy.forward.
           cbn [AugmentedPolicy.linear AugmentedPolicy.init]. now rewrite Ela. }
  repeat split; assumption || reflexivity.
Qed.

(** The shape contracts of the stages fit: for any batch size, number of
    timesteps and instruction length (all at least one), the encoders, the
    fusion, the time encoder and the three heads run one after the other
    without an exception and end in tensors of shapes [(B, 2)],
    [(B, num_instructions)], [(B, num_objects)] and [(B, num_actions)]. *)
Theorem stages_compose
  (V num_instructions num_objects num_actions : nat) (bow : bool)
  (we w1 b1 w2 b2 w3 b3 wl bl w_ih w_hh b_ih b_hh
      ws bs wi bi wo bo wa ba : list A)
  (instruction : tensor Z) (img : tensor A) (B T L : nat) :
  1 <= B -> 1 <= T -> 1 <= L ->
  length we = V * 128 ->
  shape instruction = [B; L] -> wf instruction ->
  Forall (token V) (data instruction) ->
  shape img = [B; T; 3; 84; 84] ->
  exists ie ve fe te switch ip op ap,
    snd (InstructionEncoder.forward (InstructionEncoder.init V bow we) instruction)
    = Ok ie
    /\ VisualEncoder.forward (VisualEncoder.init w1 b1 w2 b2 w3 b3 wl bl) img
       = Ok ve
    /\ Fusion.forward Fusion.init ve ie = Ok fe
    /\ TimeEncoder.forward (TimeEncoder.init w_ih w_hh b_ih b_hh) fe = Ok te
    /\ SwitchPolicy.forward (SwitchPolicy.init ws bs) te = Ok switch
    /\ InstructionPolicy.forward
         (InstructionPolicy.init num_instructions num_objects wi bi wo bo) te
       = Ok (ip, op)
    /\ AugmentedPolicy.forward (AugmentedPolicy.init num_actions wa ba) te
       = Ok ap
    /\ shape ie = [B; 128] /\ shape ve = [B; T; 256]
    /\ shape fe = [B; T; 384] /\ shape te = [B; 256]
    /\ shape switch = [B; 2]
    /\ shape ip = [B; num_instructions] /\ shape op = [B; num_objects]
    /\ shape ap = [B; num_actions].
Proof.
  exact (stages_run V num_instructions num_objects num_actions bow
           we w1 b1 w2 b2 w3 b3 wl bl w_ih w_hh b_ih b_hh
           ws bs wi bi wo bo wa ba instruction img B T L).
Qed.

End Pipeline.

Lemma sbind_ok {T U : Type} (c : script T) (k : T -> script U)
  (l1 l2 : list event) (x : T) (r : failure + U) :
  c = (l1, inr x) -> k x = (l2, r) -> sbind c k = (l1 ++ l2, r).
Proof. intros -> Hk. unfold sbind. now rewrite Hk. Qed.

Section SelfTestFacts.
Context {A : Type} {SA : Scalar A} {AA : Activation A}.

(** Whatever values the script draws for the token ids, the pixels and the
    parameters, the self-test raises nothing, fails no [assert] and prints
    its seven lines. *)
Theorem self_test_passes (d : @SelfTest.draws A) :
  length (SelfTest.instr_values d) = 10 * 5 ->
  Forall (token 10) (SelfTest.instr_values d) ->
  length (SelfTest.embedding_w d) = 10 * 128 ->
  SelfTest.main d
  = ([Printed "Instruction encoder: Output size is verified.";
      Printed "Visual encoder: Output size is verified.";
      Printed "Fuser encoding: Output size is verified.";
      Printed "Time encoder: Output size is verified.";
      Printed "Switch policy: Output size is verified.";
      Printed "Instruction policy: Output sizes are verified.";
      Printed "Augmented policy: Output size is verified."],
     inr tt).
Proof.
  intros Hlen Htok Hwe.
  destruct (stages_run 10 4 6 8 true (SelfTest.embedding_w d)
      (SelfTest.conv1_w d) (SelfTest.conv1_b d)
      (SelfTest.conv2_w d) (SelfTest.conv2_b d)
      (SelfTest.conv3_w d) (SelfTest.conv3_b d)
      (SelfTest.linear_w d) (SelfTest.linear_b d)
      (SelfTest.lstm_w_ih d) (SelfTest.lstm_w_hh d)
      (SelfTest.lstm_b_ih d) (SelfTest.lstm_b_hh d)
      (SelfTest.switch_w d) (SelfTest.switch_b d)
      (SelfTest.instruction_w d) (SelfTest.instruction_b d)
      (SelfTest.object_w d) (SelfTest.object_b d)
      (SelfTest.action_w d) (SelfTest.action_b d)
      (Tensor [10; 5] (SelfTest.instr_values d))
      (Tensor [10; 4; 3; 84; 84] (SelfTest.visual_values d)) 10 4 5)
    as (ie & ve & fe & te & sw & ip & op & ap & Eie & Eve & Efe & Ete & Esw
        & Eip & Eap & Hie & Hve & Hfe & Hte & Hsw & Hip & Hop & Hap);
    try lia; try reflexivity; try assumption.
  assert (Eie' : InstructionEncoder.forward
                   (InstructionEncoder.init 10 true (SelfTest.embedding_w d))
                   (Tensor [10; 5] (SelfTest.instr_values d)) = ([], Ok ie)).
  { rewrite <- Eie. apply surjective_pairing. }
  assert (Hlog : exists l, SelfTest.main d = (l, inr tt)
     /\ l = [Printed "Instruction encoder: Output size is verified.";
             Printed "Visual encoder: Output size is verified.";
             Printed "Fuser encoding: Output size is verified.";
             Printed "Time encoder: Output size is verified.";
             Printed "Switch policy: Output size is verified.";
             Printed "Instruction policy: Output sizes are verified.";
             Printed "Augmented policy: Output size is verified."]).
  { eexists. split.
    - unfold SelfTest.main, SelfTest.BATCH_SIZE, SelfTest.NUM_TIMESTEPS, size.
      cbv zeta.
      eapply sbind_ok; [rewrite Eie'; reflexivity | cbv beta].
      eapply sbind_ok; [rewrite Hie; reflexivity | cbv beta].
      eapply sbind_ok; [reflexivity | cbv beta].
      eapply sbind_ok; [rewrite Eve; reflexivity | cbv beta].
      eapply sbind_ok; [rewrite Hve; reflexivity | cbv beta].
      eapply sbind_ok; [reflexivity | cbv beta].
      eapply sbind_ok; [rewrite Efe; reflexivity | cbv beta].
      eapply sbind_ok; [rewrite Hfe; reflexivity | cbv beta].
      eapply sbind_ok; [reflexivity | cbv beta].
      eapply sbind_ok; [rewrite Ete; reflexivity | cbv beta].
      eapply sbind_ok; [rewrite Hte; reflexivity | cbv beta].
      eapply sbind_ok; [reflexivity | cbv beta].
      eapply sbind_ok; [rewrite Esw; reflexivity | cbv beta].
      eapply sbind_ok; [rewrite Hsw; reflexivity | cbv beta].
      eapply sbind_ok; [reflexivity | cbv beta].
      eapply sbind_ok; [rewrite Eip; reflexivity | cbv beta iota].
      eapply sbind_ok; [rewrite Hip; reflexivity | cbv beta].
      eapply sbind_ok; [rewrite Hop; reflexivity | cbv beta].
      eapply sbind_ok; [reflexivity | cbv beta].
      eapply sbind_ok; [rewrite Eap; reflexivity | cbv beta].
      eapply sbind_ok; [rewrite Hap; reflexivity | cbv beta].
      reflexivity.
    - reflexivity. }
  destruct Hlog as [l [E ->]]. exact E.
Qed.

End SelfTestFacts.

(** ** Fusion on other shapes *)

Lemma expand_data_one {A : Type} (s t : list nat) (T : nat) (r : list A) :
  length r = numel s ->
  expand_data (1 :: s) (T :: t) r = concat (repeat (expand_data s t r) T).
Proof.
  intros Hr. cbn [expand_data].
  destruct (Nat.eqb_spec 1 T) as [<-|_]; [|reflexivity].
  unfold rows. cbn [seq map flat_map repeat concat].
  now rewrite slice_0_all by assumption.
Qed.

Section FusionShapes.
Context {A : Type}.

(** What [Fusion.forward] does on any three-axis visual tensor and any
    two-axis instruction tensor. *)
Lemma Fusion_forward_general (self : Fusion.t) (visual instruction : tensor A)
  (B T W Bi Wi : nat) :
  shape visual = [B; T; W] -> shape instruction = [Bi; Wi] ->
  Fusion.forward self visual instruction
  = if expandable [Bi; 1; Wi] [B; T; 128]
    then Ok (Tensor [B; T; W + 128]
               (flat_map (fun i =>
                  slice i W (data visual)
                  ++ slice i 128 (expand_data [Bi; 1; Wi] [B; T; 128]
                                              (data instruction)))
                  (seq 0 (B * T))))
    else Raise RuntimeError.
Proof.
  intros Hv Hi. destruct visual as [sv dv], instruction as [si di].
  cbn [shape data] in *. subst sv si.
  unfold Fusion.forward, size.
  cbn [getitem nth_error bind shape data].
  unfold unsqueeze. cbn [shape length Nat.leb firstn skipn app data bind].
  unfold expand. cbn [shape length Nat.ltb Nat.leb Nat.sub].
  change (repeat 1 0 ++ [Bi; 1; Wi]) with [Bi; 1; Wi].
  destruct (expandable [Bi; 1; Wi] [B; T; 128]); [|reflexivity].
  cbn [bind data].
  unfold torch.cat_last. cbn [shape removelast forallb length Nat.eqb negb andb].
  rewrite shape_eqb_refl. cbn [andb map shape data flat_map app torch.last_size last].
  replace (list_sum [W; 128]) with (W + 128) by (cbn [list_sum fold_right]; lia).
  replace (numel [B; T]) with (B * T) by (cbn [numel fold_right]; lia).
  do 2 f_equal. apply flat_map_ext. intros i. now rewrite app_nil_r.
Qed.

Lemma fused_features (B T W : nat) (dv expanded : list A) (b t : nat) :
  length dv = B * (T * W) -> length expanded = B * (T * 128) ->
  b < B -> t < T ->
  slice (b * T + t) (W + 128)
        (flat_map (fun i => slice i W dv ++ slice i 128 expanded) (seq 0 (B * T)))
  = slice (b * T + t) W dv ++ slice (b * T + t) 128 expanded.
Proof.
  intros Hdv He Hb Ht.
  assert (Hbt : b * T + t < B * T) by nia.
  assert (Hlen : forall i, In i (seq 0 (B * T)) ->
            length (slice i W dv ++ slice i 128 expanded) = W + 128).
  { intros i Hin. apply in_seq in Hin. rewrite length_app, !slice_length by nia.
    reflexivity. }
  rewrite (slice_flat_map _ (W + 128) _ 0 Hlen) by now rewrite length_seq.
  now rewrite seq_nth.
Qed.

(** [Fusion.forward] does not look at the width of the visual features:
    on visual features [(B, T, W)] of any width [W] and instruction
    features [(B, 128)] it returns [(B, T, W + 128)], the [W] visual
    features of [(b, t)] followed by the 128 instruction features of [b]. *)
Theorem fusion_any_visual_width (self : Fusion.t) (visual instruction : tensor A)
  (B T W : nat) :
  shape visual = [B; T; W] -> wf visual ->
  shape instruction = [B; 128] -> wf instruction ->
  exists out,
    Fusion.forward self visual instruction = Ok out
    /\ shape out = [B; T; W + 128] /\ wf out
    /\ forall b t, b < B -> t < T ->
         slice (b * T + t) (W + 128) (data out)
         = slice (b * T + t) W (data visual) ++ slice b 128 (data instruction).
Proof.
  intros Hv Hwfv Hi Hwfi.
  rewrite (Fusion_forward_general self visual instruction B T W B 128 Hv Hi).
  cbn [expandable]. rewrite !Nat.eqb_refl. cbn [orb andb].
  rewrite orb_true_r. cbn [andb].
  unfold wf in *. rewrite Hv in Hwfv. rewrite Hi in Hwfi.
  cbn [numel fold_right] in Hwfv, Hwfi.
  rewrite expand_data_cons_same. change (numel [1; 128]) with 128.
  rewrite (flat_map_ext_on (expand_data [1; 128] [T; 128])
                           (fun r => concat (repeat r T)))
    by (intros r Hr; apply (expand_data_row [128]);
        apply (rows_In_length 128 B (data instruction)); [lia | assumption]).
  set (expanded := flat_map _ (rows 128 B (data instruction))).
  assert (Hrow : forall r, In r (rows 128 B (data instruction)) ->
                   length (concat (repeat r T)) = T * 128).
  { intros r Hr. rewrite concat_repeat_length.
    rewrite (rows_In_length 128 B (data instruction) r); [reflexivity | lia | assumption]. }
  assert (Hexp : length expanded = B * (T * 128)).
  { unfold expanded. rewrite (flat_map_const_length _ (T * 128)) by assumption.
    now rewrite rows_length. }
  eexists. split; [reflexivity|]. split; [reflexivity|]. split.
  - cbn [shape data numel fold_right].
    rewrite (flat_map_const_length _ (W + 128)).
    + rewrite length_seq. lia.
    + intros i Hin. apply in_seq in Hin.
      rewrite length_app, !slice_length by nia. reflexivity.
  - intros b t Hb Ht. cbn [data].
    rewrite (fused_features B T W _ expanded b t) by (assumption || lia).
    f_equal.
    rewrite <- (slice_slice b t 128 T) by assumption.
    unfold expanded.
    rewrite (slice_flat_map _ (T * 128) _ [] Hrow) by now rewrite rows_length.
    rewrite rows_nth by assumption.
    apply slice_concat_repeat; [|assumption].
    apply slice_length. nia.
Qed.

(** An instruction tensor whose batch size is neither that of the visual
    features nor one, or whose width is neither 128 nor one, is rejected
    with the size mismatch of [expand]. *)
Theorem fusion_rejects_instruction (self : Fusion.t)
  (visual instruction : tensor A) (B T W Bi Wi : nat) :
  shape visual = [B; T; W] -> shape instruction = [Bi; Wi] ->
  (Bi <> B /\ Bi <> 1) \/ (Wi <> 128 /\ Wi <> 1) ->
  Fusion.forward self visual instruction = Raise RuntimeError.
Proof.
  intros Hv Hi Hbad.
  rewrite (Fusion_forward_general self visual instruction B T W Bi Wi Hv Hi).
  cbn [expandable].
  destruct (Nat.eqb_spec Bi B), (Nat.eqb_spec Bi 1),
    (Nat.eqb_spec Wi 128), (Nat.eqb_spec Wi 1);
    cbn [orb andb]; try reflexivity; rewrite ?andb_false_r; try reflexivity;
    exfalso; destruct Hbad as [[? ?]|[? ?]]; contradiction.
Qed.

(** A single instruction, given as [(1, 128)], is shared by the whole
    batch: its 128 features are appended at every batch element and
    timestep. *)
Theorem fusion_shares_single_instruction (self : Fusion.t)
  (visual instruction : tensor A) (B T W : nat) :
  shape visual = [B; T; W] -> wf visual ->
  shape instruction = [1; 128] -> wf instruction ->
  exists out,
    Fusion.forward self visual instruction = Ok out
    /\ shape out = [B; T; W + 128]
    /\ forall b t, b < B -> t < T ->
         slice (b * T + t) (W + 128) (data out)
         = slice (b * T + t) W (data visual) ++ data instruction.
Proof.
  intros Hv Hwfv Hi Hwfi.
  rewrite (Fusion_forward_general self visual instruction B T W 1 128 Hv Hi).
  cbn [expandable]. rewrite !Nat.eqb_refl, !orb_true_r. cbn [andb].
  unfold wf in *. rewrite Hv in Hwfv. rewrite Hi in Hwfi.
  cbn [numel fold_right] in Hwfv, Hwfi.
  rewrite (expand_data_one [1; 128] [T; 128] B) by (rewrite Hwfi; reflexivity).
  rewrite (expand_data_row [128] T) by (rewrite Hwfi; reflexivity).
  set (expanded := concat (repeat (concat (repeat (data instruction) T)) B)).
  assert (Hexp : length expanded = B * (T * 128)).
  { unfold expanded. rewrite !concat_repeat_length. lia. }
  eexists. split; [reflexivity|]. split; [reflexivity|].
  intros b t Hb Ht. cbn [data].
  rewrite (fused_features B T W _ expanded b t) by (assumption || lia).
  f_equal.
  rewrite <- (slice_slice b t 128 T) by assumption.
  unfold expanded.
  rewrite (slice_concat_repeat _ (T * 128) B b)
    by (try assumption; rewrite concat_repeat_length; lia).
  apply slice_concat_repeat; [lia | assumption].
Qed.

(** Instruction features of width one are not rejected: the single
    feature of batch element [b] is repeated 128 times. *)
Theorem fusion_broadcasts_width_one (self : Fusion.t)
  (visual instruction : tensor A) (B T W : nat) :
  shape visual = [B; T; W] -> wf visual ->
  shape instruction = [B; 1] -> wf instruction ->
  exists out,
    Fusion.forward self visual instruction = Ok out
    /\ shape out = [B; T; W + 128]
    /\ forall b t, b < B -> t < T ->
         slice (b * T + t) (W + 128) (data out)
         = slice (b * T + t) W (data visual)
           ++ concat (repeat (slice b 1 (data instruction)) 128).
Proof.
  intros Hv Hwfv Hi Hwfi.
  rewrite (Fusion_forward_general self visual instruction B T W B 1 Hv Hi).
  cbn [expandable]. rewrite !Nat.eqb_refl, !orb_true_r. cbn [orb andb].
  unfold wf in *. rewrite Hv in Hwfv. rewrite Hi in Hwfi.
  cbn [numel fold_right] in Hwfv, Hwfi.
  rewrite expand_data_cons_same. change (numel [1; 1]) with 1.
  assert (Hone : forall r : list A, length r = 1 ->
            expand_data [1; 1] [T; 128] r
            = concat (repeat (concat (repeat r 128)) T)).
  { intros r Hr. rewrite (expand_data_one [1] [128] T) by exact Hr.
    now rewrite (expand_data_one [] [] 128) by exact Hr. }
  rewrite (flat_map_ext_on (expand_data [1; 1] [T; 128])
                           (fun r => concat (repeat (concat (repeat r 128)) T)))
    by (intros r Hr; apply Hone;
        apply (rows_In_length 1 B (data instruction)); [lia | assumption]).
  set (expanded := flat_map _ (rows 1 B (data instruction))).
  assert (Hrow : forall r, In r (rows 1 B (data instruction)) ->
            length (concat (repeat (concat (repeat r 128)) T)) = T * 128).
  { intros r Hr. rewrite !concat_repeat_length.
    rewrite (rows_In_length 1 B (data instruction) r); [lia | lia | assumption]. }
  assert (Hexp : length expanded = B * (T * 128)).
  { unfold expanded. rewrite (flat_map_const_length _ (T * 128)) by assumption.
    now rewrite rows_length. }
  eexists. split; [reflexivity|]. split; [reflexivity|].
  intros b t Hb Ht. cbn [data].
  rewrite (fused_features B T W _ expanded b t) by (assumption || lia).
  f_equal.
  rewrite <- (slice_slice b t 128 T) by assumption.
  unfold expanded.
  rewrite (slice_flat_map _ (T * 128) _ [] Hrow) by now rewrite rows_length.
  rewrite rows_nth by assumption.
  apply slice_concat_repeat; [|assumption].
  rewrite concat_repeat_length, slice_length; lia.
Qed.

End FusionShapes.

(** ** InstructionEncoder on other inputs *)

Lemma mapM_raise {T U : Type} (f : T -> result U) (e : exn) (l : list T) :
  (forall x, In x l -> (exists y, f x = Ok y) \/ f x = Raise e) ->
  (exists x, In x l /\ f x = Raise e) ->
  mapM f l = Raise e.
Proof.
  induction l as [|x l IH]; intros Hall [x0 [Hin Hx0]]; [contradiction|].
  cbn [mapM]. destruct (Hall x (or_introl eq_refl)) as [[y Hy]|Hr].
  - rewrite Hy. cbn [bind]. destruct Hin as [->|Hin]; [congruence|].
    rewrite IH; [reflexivity | intros; apply Hall; now right | eauto].
  - now rewrite Hr.
Qed.

Lemma token_dec (V : nat) (z : Z) : {token V z} + {~ token V z}.
Proof.
  unfold token.
  destruct (Z_le_dec 0 z), (Z_lt_dec z (Z.of_nat V)); (left; lia) || (right; lia).
Qed.

Section InstructionEncoderErrors.
Context {A : Type} {SA : Scalar A}.

Lemma embed_raise (self : @EmbeddingBag.t A) (z : Z) :
  ~ token (EmbeddingBag.num_embeddings self) z ->
  EmbeddingBag.embed self z = Raise RuntimeError.
Proof.
  intros H. unfold EmbeddingBag.embed, token in *.
  destruct (Z.leb_spec 0 z), (Z.ltb_spec z (Z.of_nat (EmbeddingBag.num_embeddings self)));
    cbn [andb]; try reflexivity. lia.
Qed.

Lemma bag_fold_raised (self : @EmbeddingBag.t A) (bag : list Z) (e : exn) :
  fold_left (fun acc z => a <- acc ;; e <- EmbeddingBag.embed self z ;; Ok (vadd a e))
            bag (Raise e)
  = Raise e.
Proof. induction bag as [|z bag IH]; [reflexivity | exact IH]. Qed.

Lemma bag_sum_cases (self : @EmbeddingBag.t A) (bag : list Z) :
  (Forall (token (EmbeddingBag.num_embeddings self)) bag
   /\ exists y, EmbeddingBag.bag_sum self bag = Ok y)
  \/ (Exists (fun z => ~ token (EmbeddingBag.num_embeddings self) z) bag
      /\ EmbeddingBag.bag_sum self bag = Raise RuntimeError).
Proof.
  unfold EmbeddingBag.bag_sum.
  generalize (repeat (@szero A SA) (EmbeddingBag.embedding_dim self)) as acc.
  induction bag as [|z bag IH]; intros acc.
  - left. split; [constructor | now exists acc].
  - cbn [fold_left bind].
    destruct (token_dec (EmbeddingBag.num_embeddings self) z) as [Hz|Hz].
    + rewrite (embed_ok self z Hz). cbn [bind].
      destruct (IH (vadd acc (slice (Z.to_nat z) (EmbeddingBag.embedding_dim self)
                                    (data (EmbeddingBag.weight self)))))
        as [[Hall Hy]|[Hex Hr]].
      * left. split; [now constructor | exact Hy].
      * right. split; [now apply Exists_cons_tl | exact Hr].
    + rewrite (embed_raise self z Hz). cbn [bind]. right.
      split; [now apply Exists_cons_hd | apply bag_fold_raised].
Qed.

(** A token id outside the vocabulary makes the call fail with the
    run-time error of the embedding lookup: no tensor is returned. *)
Theorem unknown_token_rejected (V : nat) (bow : bool) (w : list A)
  (x : tensor Z) (B L : nat) (z : Z) :
  shape x = [B; L] -> wf x -> 1 <= L ->
  In z (data x) -> ~ token V z ->
  snd (InstructionEncoder.forward (InstructionEncoder.init V bow w) x)
  = Raise RuntimeError.
Proof.
  intros Hs Hwf HL Hin Hz. unfold wf in Hwf. rewrite Hs in Hwf.
  cbn [numel fold_right] in Hwf.
  unfold InstructionEncoder.forward.
  cbn [snd InstructionEncoder.embeddings InstructionEncoder.init].
  unfold EmbeddingBag.forward. rewrite Hs.
  replace (numel [B; L]) with (B * L) by (cbn [numel fold_right]; lia).
  rewrite (arange_rows B L HL). cbn [bind].
  unfold EmbeddingBag.bag_sums.
  rewrite bags_rows by lia.
  rewrite (mapM_raise _ RuntimeError); [reflexivity| |].
  - intros r _. destruct (bag_sum_cases (EmbeddingBag.init V 128 w) r)
      as [[_ Hy]|[_ Hr]]; [now left | now right].
  - rewrite <- (concat_rows L B (data x)) in Hin by lia.
    apply in_concat in Hin. destruct Hin as [r [Hr Hzr]].
    exists r. split; [assumption|].
    destruct (bag_sum_cases (EmbeddingBag.init V 128 w) r)
      as [[Hall _]|[_ Hraise]]; [|assumption].
    rewrite Forall_forall in Hall. exfalso. apply Hz. apply (Hall z Hzr).
Qed.

(** Only a two-axis instruction tensor is encoded: on any other number of
    axes (a single unbatched instruction, for one) the call fails with a
    value error, because [forward] passes no offsets. *)
Theorem instruction_must_be_batched (self : @InstructionEncoder.t A)
  (x : tensor Z) :
  length (shape x) <> 2 ->
  snd (InstructionEncoder.forward self x) = Raise ValueError.
Proof.
  intros H. unfold InstructionEncoder.forward, EmbeddingBag.forward.
  cbn [snd]. destruct (shape x) as [|a [|b [|c s]]]; try reflexivity.
  now contradiction H.
Qed.

End InstructionEncoderErrors.

Section InstructionEncoderAdditive.
Context {A : Type} {SA : Scalar A} {LA : ScalarLaws A}.

Lemma vadd_zeros_l (n : nat) (a : list A) :
  length a = n -> vadd (repeat szero n) a = a.
Proof.
  revert a. induction n as [|n IH]; intros [|x a] H; try discriminate; [reflexivity|].
  unfold vadd in *. cbn [repeat combine map fst snd].
  rewrite sadd_zero_l. f_equal. apply IH. now injection H.
Qed.

Lemma fold_vadd_acc (n : nat) (l : list (list A)) (a : list A) :
  (forall v, In v l -> length v = n) -> length a = n ->
  fold_left vadd l a = vadd a (fold_left vadd l (repeat szero n)).
Proof.
  revert a. induction l as [|v l IH]; intros a Hl Ha; cbn [fold_left].
  - rewrite vadd_comm. symmetry. now apply vadd_zeros_l.
  - assert (Hv : length v = n) by (apply Hl; now left).
    assert (Hl' : forall u, In u l -> length u = n) by (intros; apply Hl; now right).
    rewrite (IH (vadd a v)), (IH (vadd (repeat szero n) v)); try assumption.
    + rewrite (vadd_zeros_l n v Hv). apply vadd_assoc.
    + rewrite vadd_length, repeat_length, Hv. apply Nat.min_id.
    + rewrite vadd_length, Ha, Hv. apply Nat.min_id.
Qed.

Lemma sum_of_embeddings_app (V : nat) (w : list A) (r1 r2 : list Z) :
  length w = V * 128 -> Forall (token V) r1 -> Forall (token V) r2 ->
  sum_of_embeddings w (r1 ++ r2)
  = vadd (sum_of_embeddings w r1) (sum_of_embeddings w r2).
Proof.
  intros Hw H1 H2. unfold sum_of_embeddings.
  rewrite map_app, fold_left_app.
  apply (fold_vadd_acc 128).
  - intros v Hv. apply in_map_iff in Hv. destruct Hv as [z [<- Hz]].
    rewrite Forall_forall in H2. eapply embedding_row_length; eauto.
  - apply (sum_of_embeddings_length V w r1 Hw H1).
Qed.

Lemma vadd_app (a b c d : list A) :
  length a = length c -> vadd (a ++ b) (c ++ d) = vadd a c ++ vadd b d.
Proof.
  unfold vadd. revert c. induction a as [|x a IH]; intros [|y c] H;
    try discriminate; [reflexivity|].
  cbn [app combine map]. f_equal. apply IH. now injection H.
Qed.

Lemma vadd_flat_map (f g : nat -> list A) (n : nat) (l : list nat) :
  (forall i, In i l -> length (f i) = n /\ length (g i) = n) ->
  vadd (flat_map f l) (flat_map g l) = flat_map (fun i => vadd (f i) (g i)) l.
Proof.
  induction l as [|i l IH]; intros H; [reflexivity|].
  cbn [flat_map]. destruct (H i (or_introl eq_refl)) as [Hf Hg].
  rewrite vadd_app by congruence. f_equal. apply IH.
  intros j Hj. apply H. now right.
Qed.

(** The encoding is additive in the instruction: if every row of a batch
    is a row of a first batch followed by the row of a second one, its
    encoding is the elementwise sum of the two encodings. *)
Theorem encoding_of_concatenation (V : nat) (bow : bool) (w : list A)
  (x1 x2 x12 : tensor Z) (B L1 L2 : nat) :
  length w = V * 128 ->
  shape x1 = [B; L1] -> wf x1 -> shape x2 = [B; L2] -> wf x2 ->
  shape x12 = [B; L1 + L2] -> wf x12 ->
  1 <= L1 -> 1 <= L2 ->
  Forall (token V) (data x1) -> Forall (token V) (data x2) ->
  (forall b, b < B ->
     slice b (L1 + L2) (data x12) = slice b L1 (data x1) ++ slice b L2 (data x2)) ->
  exists o1 o2 o12,
    snd (InstructionEncoder.forward (InstructionEncoder.init V bow w) x1) = Ok o1
    /\ snd (InstructionEncoder.forward (InstructionEncoder.init V bow w) x2) = Ok o2
    /\ snd (InstructionEncoder.forward (InstructionEncoder.init V bow w) x12) = Ok o12
    /\ shape o12 = [B; 128]
    /\ data o12 = vadd (data o1) (data o2).
Proof.
  intros Hw Hs1 Hwf1 Hs2 Hwf2 Hs12 Hwf12 HL1 HL2 Ht1 Ht2 Hrows.
  assert (R1 : forall b, b < B -> Forall (token V) (slice b L1 (data x1)))
    by (intros; now apply Forall_slice).
  assert (R2 : forall b, b < B -> Forall (token V) (slice b L2 (data x2)))
    by (intros; now apply Forall_slice).
  assert (R12 : forall b, b < B -> Forall (token V) (slice b (L1 + L2) (data x12))).
  { intros b Hb. rewrite (Hrows b Hb). apply Forall_app. split; auto. }
  unfold InstructionEncoder.forward.
  cbn [snd InstructionEncoder.embeddings InstructionEncoder.init].
  rewrite (EmbeddingBag_forward_rows V w x1 B L1 Hs1 Hwf1 HL1 R1).
  rewrite (EmbeddingBag_forward_rows V w x2 B L2 Hs2 Hwf2 HL2 R2).
  rewrite (EmbeddingBag_forward_rows V w x12 B (L1 + L2) Hs12 Hwf12 ltac:(lia) R12).
  do 3 eexists. split; [reflexivity|]. split; [reflexivity|].
  split; [reflexivity|]. split; [reflexivity|].
  cbn [data]. unfold rows. rewrite !map_map, <- !flat_map_concat_map.
  rewrite (vadd_flat_map _ _ 128).
  - apply flat_map_ext_on. intros b Hb. apply in_seq in Hb.
    rewrite Hrows by lia. apply (sum_of_embeddings_app V); try assumption.
    + apply R1; lia.
    + apply R2; lia.
  - intros b Hb. apply in_seq in Hb. split.
    + apply (sum_of_embeddings_length V w _ Hw). apply R1. lia.
    + apply (sum_of_embeddings_length V w _ Hw). apply R2. lia.
Qed.

End InstructionEncoderAdditive.

(** ** VisualEncoder: missing axes, and the sign of the features *)

Section VisualEncoderEdges.
Context {A : Type} {SA : Scalar A} {AA : Activation A}.

(** An image tensor with fewer than two axes has no batch size or no
    number of timesteps to read: the call fails with an index error before
    any layer runs. *)
Theorem visual_encoder_needs_batch_and_time (self : @VisualEncoder.t A)
  (img : tensor A) :
  length (shape img) < 2 ->
  VisualEncoder.forward self img = Raise IndexError.
Proof.
  intros H. unfold VisualEncoder.forward, size.
  destruct (shape img) as [|a [|b s]]; try reflexivity.
  cbn [length] in H. lia.
Qed.

End VisualEncoderEdges.

(** The features end in a rectified-linear activation: at the real
    numbers none of them is negative. *)
Theorem visual_features_nonnegative (w1 b1 w2 b2 w3 b3 wl bl : list R)
  (img : tensor R) (B T : nat) (rest : list nat) :
  shape img = B :: T :: rest -> 1 <= B -> 1 <= T -> numel rest = 3 * 84 * 84 ->
  exists out,
    VisualEncoder.forward (VisualEncoder.init w1 b1 w2 b2 w3 b3 wl bl) img = Ok out
    /\ Forall (fun v => 0 <= v)%R (data out).
Proof.
  intros Hs HB HT Hrest.
  rewrite (VisualEncoder_forward_eq w1 b1 w2 b2 w3 b3 wl bl img B T rest Hs)
    by (assumption || nia).
  eexists. split; [reflexivity|]. cbn [data].
  apply Forall_forall. intros v Hv. apply in_flat_map in Hv.
  destruct Hv as [frame [_ Hv]]. unfold VisualEncoder.encode_frame in Hv.
  apply in_map_iff in Hv. destruct Hv as [u [<- _]].
  cbn [srelu Activation_R]. apply Rmax_l.
Qed.

(** ** TimeEncoder: width, range and batching *)

Lemma sigmoid_range (x : R) : (0 < ssigmoid x < 1)%R.
Proof.
  cbn [ssigmoid Activation_R]. pose proof (exp_pos (- x)) as He.
  assert (H1 : (0 < 1 + exp (- x))%R) by lra.
  split.
  - apply Rdiv_lt_0_compat; lra.
  - apply (Rmult_lt_reg_r (1 + exp (- x))); [assumption|].
    replace (1 / (1 + exp (- x)) * (1 + exp (- x)))%R with 1%R by (field; lra).
    lra.
Qed.

Lemma tanh_range (x : R) : (-1 < stanh x < 1)%R.
Proof.
  cbn [stanh Activation_R]. unfold tanh, sinh, cosh.
  pose proof (exp_pos x) as Ha. pose proof (exp_pos (- x)) as Hb.
  set (a := exp x) in *. set (b := exp (- x)) in *.
  assert (Hc : (0 < (a + b) / 2)%R) by lra.
  assert (E : ((a - b) / 2 / ((a + b) / 2) * ((a + b) / 2) = (a - b) / 2)%R)
    by (field; lra).
  split; apply (Rmult_lt_reg_r ((a + b) / 2)); try assumption; rewrite E; lra.
Qed.

Lemma gated_range (g c : list R) :
  Forall (fun h => -1 < h < 1)%R (vmul (map ssigmoid g) (map stanh c)).
Proof.
  unfold vmul. apply Forall_forall. intros h Hh.
  apply in_map_iff in Hh. destruct Hh as [[s u] [<- Hp]]. cbn [fst snd].
  pose proof (in_combine_l _ _ _ _ Hp) as Hs.
  pose proof (in_combine_r _ _ _ _ Hp) as Hu.
  apply in_map_iff in Hs. destruct Hs as [x [<- _]].
  apply in_map_iff in Hu. destruct Hu as [y [<- _]].
  pose proof (sigmoid_range x) as [S0 S1]. pose proof (tanh_range y) as [T0 T1].
  change (smul (ssigmoid x) (stanh y)) with (ssigmoid x * stanh y)%R.
  split; nra.
Qed.

Lemma LSTMCell_range (self : @LSTM.t R) (x : list R) (hc : list R * list R) :
  Forall (fun h => -1 < h < 1)%R (fst (LSTM.LSTMCell self x hc)).
Proof. unfold LSTM.LSTMCell. cbn [fst]. apply gated_range. Qed.

Lemma run_row_range (w_ih w_hh b_ih b_hh : list R) (T : nat) (x : list R) (b : nat) :
  1 <= T ->
  Forall (fun h => -1 < h < 1)%R
    (fst (TimeEncoder.run_row (TimeEncoder.init w_ih w_hh b_ih b_hh) T x b)).
Proof.
  intros HT. destruct T as [|k]; [lia|].
  unfold TimeEncoder.run_row. rewrite seq_S, fold_left_app. cbn [fold_left].
  apply LSTMCell_range.
Qed.

(** Every entry of a summary vector lies strictly between -1 and 1 (at the
    real numbers): it is an output gate times a hyperbolic tangent. *)
Theorem summary_entries_bounded (w_ih w_hh b_ih b_hh : list R)
  (fused : tensor R) (B T : nat) :
  1 <= B -> 1 <= T -> shape fused = [B; T; 384] ->
  exists out,
    TimeEncoder.forward (TimeEncoder.init w_ih w_hh b_ih b_hh) fused = Ok out
    /\ Forall (fun h => -1 < h < 1)%R (data out).
Proof.
  intros HB HT Hs.
  rewrite (TimeEncoder_forward_eq w_ih w_hh b_ih b_hh fused B T HB HT Hs).
  eexists. split; [reflexivity|]. cbn [data].
  apply Forall_forall. intros h Hh. apply in_flat_map in Hh.
  destruct Hh as [b [_ Hh]].
  pose proof (run_row_range w_ih w_hh b_ih b_hh T (data fused) b HT) as Hr.
  rewrite Forall_forall in Hr. now apply Hr.
Qed.

Lemma fold_left_ext_in {S U : Type} (f g : S -> U -> S) (l : list U) :
  (forall s u, In u l -> f s u = g s u) ->
  forall s, fold_left f l s = fold_left g l s.
Proof.
  induction l as [|u l IH]; intros H s; [reflexivity|].
  cbn [fold_left]. rewrite (H s u) by now left.
  apply IH. intros s' u' Hu. apply H. now right.
Qed.

Section TimeEncoderEdges.
Context {A : Type} {SA : Scalar A} {AA : Activation A}.
Variables w_ih w_hh b_ih b_hh : list A.

Local Notation "'enc'" := (TimeEncoder.init w_ih w_hh b_ih b_hh) (only parsing).

(** A fused sequence whose features are not 384 wide is rejected with a
    size mismatch. *)
Theorem time_encoder_rejects_width (fused : tensor A) (B T n : nat) :
  1 <= B -> 1 <= T -> shape fused = [B; T; n] -> n <> 384 ->
  TimeEncoder.forward enc fused = Raise RuntimeError.
Proof.
  intros HB HT Hs Hn. unfold TimeEncoder.forward, size. rewrite Hs.
  cbn [getitem nth_error bind TimeEncoder.lstm TimeEncoder.init].
  unfold LSTM.forward. rewrite Hs.
  cbn [LSTM.batch_first LSTM.input_size LSTM.init].
  now destruct (Nat.eqb_spec n 384).
Qed.

(** Batching changes nothing: the summary vector of a sequence inside a
    batch is the one [forward] returns for that sequence alone, as a batch
    of one. *)
Theorem time_encoder_rows_independent (fused : tensor A) (B T b : nat) :
  1 <= B -> 1 <= T -> shape fused = [B; T; 384] -> wf fused -> b < B ->
  exists out alone,
    TimeEncoder.forward enc fused = Ok out
    /\ TimeEncoder.forward enc
         (Tensor [1; T; 384] (slice b (T * 384) (data fused))) = Ok alone
    /\ shape alone = [1; 256]
    /\ data alone = slice b 256 (data out).
Proof.
  intros HB HT Hs Hwf Hb.
  rewrite (TimeEncoder_forward_eq w_ih w_hh b_ih b_hh fused B T HB HT Hs).
  rewrite (TimeEncoder_forward_eq w_ih w_hh b_ih b_hh
             (Tensor [1; T; 384] (slice b (T * 384) (data fused))) 1 T
             (le_n 1) HT eq_refl).
  do 2 eexists. split; [reflexivity|]. split; [reflexivity|].
  split; [reflexivity|]. cbn [data seq flat_map].
  rewrite app_nil_r.
  rewrite (slice_flat_map _ 256 _ 0) by
    (try (intros; apply run_row_length); now rewrite length_seq).
  rewrite seq_nth by assumption. cbn [Nat.add].
  f_equal. unfold TimeEncoder.run_row.
  apply fold_left_ext_in. intros hc s Hin. apply in_seq in Hin.
  f_equal. cbn [Nat.mul Nat.add]. apply slice_slice. lia.
Qed.

End TimeEncoderEdges.

(** ** The policy heads: width, and the binary switch *)

Section HeadEdges.
Context {A : Type} {SA : Scalar A} {AA : Activation A}.

(** A summary vector whose last axis is not 256 wide is rejected by every
    head with a size mismatch. *)
Theorem heads_reject_width (ws bs wi bi wo bo wa ba : list A)
  (num_instructions num_objects num_actions : nat)
  (x : tensor A) (lead : list nat) (n : nat) :
  shape x = lead ++ [n] -> n <> 256 ->
  SwitchPolicy.forward (SwitchPolicy.init ws bs) x = Raise RuntimeError
  /\ InstructionPolicy.forward
       (InstructionPolicy.init num_instructions num_objects wi bi wo bo) x
     = Raise RuntimeError
  /\ AugmentedPolicy.forward (AugmentedPolicy.init num_actions wa ba) x
     = Raise RuntimeError.
Proof.
  intros Hs Hn. destruct x as [s d]. cbn [shape] in Hs. subst s.
  unfold SwitchPolicy.forward, InstructionPolicy.forward, AugmentedPolicy.forward.
  cbn [SwitchPolicy.linear SwitchPolicy.init
       InstructionPolicy.instruction_linear InstructionPolicy.init
       AugmentedPolicy.linear AugmentedPolicy.init].
  rewrite !Linear_forward_mismatch by exact Hn.
  repeat split.
Qed.

End HeadEdges.

Lemma exp_diff (a b : R) : (exp (- (a - b)) = exp b / exp a)%R.
Proof.
  replace (- (a - b))%R with (b + - a)%R by lra.
  rewrite exp_plus, exp_Ropp. reflexivity.
Qed.

(** The switch is logistic: the probability of its first outcome is the
    sigmoid of the difference between the two projections of the summary
    vector, and that of the second outcome the sigmoid of the opposite
    difference. *)
Theorem switch_is_logistic (ws bs : list R) (x : tensor R) (B b : nat) :
  shape x = [B; 256] -> b < B ->
  exists out,
    SwitchPolicy.forward (SwitchPolicy.init ws bs) x = Ok out
    /\ let z := linear_row ws bs 256 2 (slice b 256 (data x)) in
       slice b 2 (data out)
       = [ssigmoid (nth 0 z 0 - nth 1 z 0)%R; ssigmoid (nth 1 z 0 - nth 0 z 0)%R].
Proof.
  intros Hs Hb.
  destruct (head_rows (Linear.init 256 2 ws bs) x B eq_refl Hs)
    as [logits [E [_ [_ Hrows]]]].
  exists (F.softmax_last logits). unfold SwitchPolicy.forward.
  cbn [SwitchPolicy.linear SwitchPolicy.init]. rewrite E. cbn [bind].
  split; [reflexivity|]. cbn zeta.
  cbn [Linear.out_features Linear.init] in Hrows. rewrite (Hrows b Hb).
  unfold Linear.apply_row. cbn [Linear.weight Linear.bias Linear.in_features
    Linear.out_features Linear.init data].
  unfold linear_row. cbn [seq map nth].
  set (z0 := sadd _ _). set (z1 := sadd _ _).
  unfold F.softmax_row, ssum. cbn [map fold_left sexp sdiv ssigmoid Activation_R
    sadd szero Scalar_R].
  pose proof (exp_pos z0) as H0. pose proof (exp_pos z1) as H1.
  rewrite !exp_diff. f_equal; [|f_equal]; field; lra.
Qed.

(** ** The further properties at concrete inputs *)

Lemma stages_compose_witness :
  let d := zero_draws in
  let instruction := Tensor [10; 5] (SelfTest.instr_values d) in
  let img := Tensor [10; 4; 3; 84; 84] (SelfTest.visual_values d) in
  exists ie ve fe te switch ip op ap,
    snd (InstructionEncoder.forward
           (InstructionEncoder.init 10 true (SelfTest.embedding_w d)) instruction)
    = Ok ie
    /\ VisualEncoder.forward
         (VisualEncoder.init (SelfTest.conv1_w d) (SelfTest.conv1_b d)
            (SelfTest.conv2_w d) (SelfTest.conv2_b d)
            (SelfTest.conv3_w d) (SelfTest.conv3_b d)
            (SelfTest.linear_w d) (SelfTest.linear_b d)) img
       = Ok ve
    /\ Fusion.forward Fusion.init ve ie = Ok fe
    /\ TimeEncoder.forward
         (TimeEncoder.init (SelfTest.lstm_w_ih d) (SelfTest.lstm_w_hh d)
            (SelfTest.lstm_b_ih d) (SelfTest.lstm_b_hh d)) fe = Ok te
    /\ SwitchPolicy.forward
         (SwitchPolicy.init (SelfTest.switch_w d) (SelfTest.switch_b d)) te
       = Ok switch
    /\ InstructionPolicy.forward
         (InstructionPolicy.init 4 6 (SelfTest.instruction_w d)
            (SelfTest.instruction_b d) (SelfTest.object_w d)
            (SelfTest.object_b d)) te
       = Ok (ip, op)
    /\ AugmentedPolicy.forward
         (AugmentedPolicy.init 8 (SelfTest.action_w d) (SelfTest.action_b d)) te
       = Ok ap
    /\ shape ie = [10; 128] /\ shape ve = [10; 4; 256]
    /\ shape fe = [10; 4; 384] /\ shape te = [10; 256]
    /\ shape switch = [10; 2]
    /\ shape ip = [10; 4] /\ shape op = [10; 6]
    /\ shape ap = [10; 8].
Proof.
  intros d instruction img.
  apply (stages_compose 10 4 6 8 true (SelfTest.embedding_w d)
      (SelfTest.conv1_w d) (SelfTest.conv1_b d)
      (SelfTest.conv2_w d) (SelfTest.conv2_b d)
      (SelfTest.conv3_w d) (SelfTest.conv3_b d)
      (SelfTest.linear_w d) (SelfTest.linear_b d)
      (SelfTest.lstm_w_ih d) (SelfTest.lstm_w_hh d)
      (SelfTest.lstm_b_ih d) (SelfTest.lstm_b_hh d)
      (SelfTest.switch_w d) (SelfTest.switch_b d)
      (SelfTest.instruction_w d) (SelfTest.instruction_b d)
      (SelfTest.object_w d) (SelfTest.object_b d)
      (SelfTest.action_w d) (SelfTest.action_b d)
      instruction img 10 4 5).
  - lia.
  - lia.
  - lia.
  - reflexivity.
  - reflexivity.
  - reflexivity.
  - repeat constructor; unfold token; simpl; lia.
  - reflexivity.
Defined.

Lemma self_test_passes_witness :
  SelfTest.main zero_draws
  = ([Printed "Instruction encoder: Output size is verified.";
      Printed "Visual encoder: Output size is verified.";
      Printed "Fuser encoding: Output size is verified.";
      Printed "Time encoder: Output size is verified.";
      Printed "Switch policy: Output size is verified.";
      Printed "Instruction policy: Output sizes are verified.";
      Printed "Augmented policy: Output size is verified."],
     inr tt).
Proof.
  apply (self_test_passes zero_draws).
  - reflexivity.
  - repeat constructor; unfold token; simpl; lia.
  - reflexivity.
Defined.

Lemma fusion_any_visual_width_witness :
  let visual := Tensor [2; 3; 5] (repeat 0%Z (2 * 3 * 5)) in
  let instruction := Tensor [2; 128] (repeat 1%Z (2 * 128)) in
  exists out,
    Fusion.forward Fusion.init visual instruction = Ok out
    /\ shape out = [2; 3; 5 + 128] /\ wf out
    /\ forall b t, b < 2 -> t < 3 ->
         slice (b * 3 + t) (5 + 128) (data out)
         = slice (b * 3 + t) 5 (data visual) ++ slice b 128 (data instruction).
Proof.
  intros visual instruction.
  apply (fusion_any_visual_width Fusion.init visual instruction 2 3 5);
    reflexivity.
Defined.

Lemma fusion_rejects_instruction_witness :
  Fusion.forward Fusion.init (Tensor [2; 3; 5] (repeat 0%Z (2 * 3 * 5)))
                 (Tensor [3; 128] (repeat 1%Z (3 * 128)))
  = Raise RuntimeError.
Proof.
  apply (fusion_rejects_instruction Fusion.init _ _ 2 3 5 3 128).
  - reflexivity.
  - reflexivity.
  - left. lia.
Defined.

Lemma fusion_shares_single_instruction_witness :
  let visual := Tensor [2; 3; 5] (repeat 0%Z (2 * 3 * 5)) in
  let instruction := Tensor [1; 128] (repeat 1%Z 128) in
  exists out,
    Fusion.forward Fusion.init visual instruction = Ok out
    /\ shape out = [2; 3; 5 + 128]
    /\ forall b t, b < 2 -> t < 3 ->
         slice (b * 3 + t) (5 + 128) (data out)
         = slice (b * 3 + t) 5 (data visual) ++ data instruction.
Proof.
  intros visual instruction.
  apply (fusion_shares_single_instruction Fusion.init visual instruction 2 3 5);
    reflexivity.
Defined.

Lemma fusion_broadcasts_width_one_witness :
  let visual := Tensor [2; 3; 5] (repeat 0%Z (2 * 3 * 5)) in
  let instruction := Tensor [2; 1] [7; 8]%Z in
  exists out,
    Fusion.forward Fusion.init visual instruction = Ok out
    /\ shape out = [2; 3; 5 + 128]
    /\ forall b t, b < 2 -> t < 3 ->
         slice (b * 3 + t) (5 + 128) (data out)
         = slice (b * 3 + t) 5 (data visual)
           ++ concat (repeat (slice b 1 (data instruction)) 128).
Proof.
  intros visual instruction.
  apply (fusion_broadcasts_width_one Fusion.init visual instruction 2 3 5);
    reflexivity.
Defined.

Lemma unknown_token_rejected_witness :
  snd (InstructionEncoder.forward
         (InstructionEncoder.init 3 true (map Z.of_nat (seq 0 (3 * 128))))
         (Tensor [1; 2] [0; 5]%Z))
  = Raise RuntimeError.
Proof.
  apply (unknown_token_rejected 3 true _ (Tensor [1; 2] [0; 5]%Z) 1 2 5%Z).
  - reflexivity.
  - reflexivity.
  - lia.
  - simpl. auto.
  - unfold token. lia.
Defined.

Lemma instruction_must_be_batched_witness :
  snd (InstructionEncoder.forward
         (InstructionEncoder.init 3 true (map Z.of_nat (seq 0 (3 * 128))))
         (Tensor [3] [0; 1; 2]%Z))
  = Raise ValueError.
Proof.
  apply (instruction_must_be_batched _ (Tensor [3] [0; 1; 2]%Z)).
  simpl. lia.
Defined.

Lemma encoding_of_concatenation_witness :
  let w := map Z.of_nat (seq 0 (3 * 128)) in
  let enc := InstructionEncoder.init 3 true w in
  exists o1 o2 o12,
    snd (InstructionEncoder.forward enc (Tensor [1; 1] [0]%Z)) = Ok o1
    /\ snd (InstructionEncoder.forward enc (Tensor [1; 2] [1; 2]%Z)) = Ok o2
    /\ snd (InstructionEncoder.forward enc (Tensor [1; 1 + 2] [0; 1; 2]%Z)) = Ok o12
    /\ shape o12 = [1; 128]
    /\ data o12 = vadd (data o1) (data o2).
Proof.
  intros w enc.
  apply (encoding_of_concatenation 3 true w (Tensor [1; 1] [0]%Z)
           (Tensor [1; 2] [1; 2]%Z) (Tensor [1; 1 + 2] [0; 1; 2]%Z) 1 1 2).
  - reflexivity.
  - reflexivity.
  - reflexivity.
  - reflexivity.
  - reflexivity.
  - reflexivity.
  - reflexivity.
  - lia.
  - lia.
  - repeat constructor; unfold token; simpl; lia.
  - repeat constructor; unfold token; simpl; lia.
  - intros b Hb. destruct b as [|b]; [reflexivity | lia].
Defined.

Lemma visual_encoder_needs_batch_and_time_witness :
  VisualEncoder.forward zero_weights (Tensor [7] (repeat 0%R 7))
  = Raise IndexError.
Proof.
  apply (visual_encoder_needs_batch_and_time zero_weights
           (Tensor [7] (repeat 0%R 7))).
  simpl. lia.
Defined.

Lemma visual_features_nonnegative_witness :
  exists out,
    VisualEncoder.forward zero_weights
      (Tensor [1; 2; 3; 84; 84] (repeat 0%R (1 * 2 * 3 * 84 * 84))) = Ok out
    /\ Forall (fun v => 0 <= v)%R (data out).
Proof.
  apply (visual_features_nonnegative _ _ _ _ _ _ _ _
           (Tensor [1; 2; 3; 84; 84] (repeat 0%R (1 * 2 * 3 * 84 * 84)))
           1 2 [3; 84; 84]).
  - reflexivity.
  - lia.
  - lia.
  - reflexivity.
Defined.

Lemma summary_entries_bounded_witness :
  exists out,
    TimeEncoder.forward zero_time_encoder
      (Tensor [1; 2; 384] (repeat 0%R (1 * 2 * 384))) = Ok out
    /\ Forall (fun h => -1 < h < 1)%R (data out).
Proof.
  apply (summary_entries_bounded _ _ _ _
           (Tensor [1; 2; 384] (repeat 0%R (1 * 2 * 384))) 1 2).
  - lia.
  - lia.
  - reflexivity.
Defined.

Lemma time_encoder_rejects_width_witness :
  TimeEncoder.forward zero_time_encoder
    (Tensor [1; 2; 100] (repeat 0%R (1 * 2 * 100)))
  = Raise RuntimeError.
Proof.
  apply (time_encoder_rejects_width _ _ _ _
           (Tensor [1; 2; 100] (repeat 0%R (1 * 2 * 100))) 1 2 100).
  - lia.
  - lia.
  - reflexivity.
  - lia.
Defined.

Lemma time_encoder_rows_independent_witness :
  let fused := Tensor [2; 3; 384] (repeat 0%R (2 * 3 * 384)) in
  exists out alone,
    TimeEncoder.forward zero_time_encoder fused = Ok out
    /\ TimeEncoder.forward zero_time_encoder
         (Tensor [1; 3; 384] (slice 1 (3 * 384) (data fused))) = Ok alone
    /\ shape alone = [1; 256]
    /\ data alone = slice 1 256 (data out).
Proof.
  intros fused.
  apply (time_encoder_rows_independent _ _ _ _ fused 2 3 1).
  - lia.
  - lia.
  - reflexivity.
  - reflexivity.
  - lia.
Defined.

Lemma heads_reject_width_witness :
  let x := Tensor [2; 100] (repeat 0%R (2 * 100)) in
  SwitchPolicy.forward (SwitchPolicy.init (repeat 0%R (2 * 256)) (repeat 0%R 2)) x
  = Raise RuntimeError
  /\ InstructionPolicy.forward
       (InstructionPolicy.init 4 6 (repeat 0%R (4 * 256)) (repeat 0%R 4)
          (repeat 0%R (6 * 256)) (repeat 0%R 6)) x
     = Raise RuntimeError
  /\ AugmentedPolicy.forward
       (AugmentedPolicy.init 8 (repeat 0%R (8 * 256)) (repeat 0%R 8)) x
     = Raise RuntimeError.
Proof.
  intros x.
  apply (heads_reject_width _ _ _ _ _ _ _ _ 4 6 8 x [2] 100).
  - reflexivity.
  - lia.
Defined.

Lemma switch_is_logistic_witness :
  let ws := repeat 0%R (2 * 256) in
  let bs := repeat 0%R 2 in
  let x := Tensor [2; 256] (repeat 0%R (2 * 256)) in
  exists out,
    SwitchPolicy.forward (SwitchPolicy.init ws bs) x = Ok out
    /\ let z := linear_row ws bs 256 2 (slice 1 256 (data x)) in
       slice 1 2 (data out)
       = [ssigmoid (nth 0 z 0 - nth 1 z 0)%R; ssigmoid (nth 1 z 0 - nth 0 z 0)%R].
Proof.
  intros ws bs x.
  apply (switch_is_logistic ws bs x 2 1).
  - reflexivity.
  - lia.
Defined.

(* ================================================================= *)
(** * Floating point, the warning filter and sequences of calls *)

(** ** The bag of words in floating point *)

Lemma float_one_is_not_zero : 1%float <> 0%float.
Proof.
  intros H. apply (f_equal (PrimFloat.eqb 1%float)) in H.
  vm_compute in H. discriminate H.
Qed.

(** C6, the claim as stated fails: at binary64 numbers the two orders
    [0, 1, 2] and [0, 2, 1] of the same tokens are encoded differently,
    as ones and as zeros. *)
Lemma float_sum_depends_on_order :
  let enc := InstructionEncoder.init 3 true float_table in
  let x := Tensor [1; 3] [0; 1; 2]%Z in
  let x' := Tensor [1; 3] [0; 2; 1]%Z in
  Permutation (data x) (data x')
  /\ snd (InstructionEncoder.forward enc x)
     = Ok (Tensor [1; 128] (repeat 1%float 128))
  /\ snd (InstructionEncoder.forward enc x')
     = Ok (Tensor [1; 128] (repeat 0%float 128))
  /\ snd (InstructionEncoder.forward enc x)
     <> snd (InstructionEncoder.forward enc x').
Proof.
  intros enc x x'.
  assert (E : snd (InstructionEncoder.forward enc x)
              = Ok (Tensor [1; 128] (repeat 1%float 128)))
    by (vm_compute; reflexivity).
  assert (E' : snd (InstructionEncoder.forward enc x')
               = Ok (Tensor [1; 128] (repeat 0%float 128)))
    by (vm_compute; reflexivity).
  split; [|split; [exact E|split; [exact E'|]]].
  - cbn [x x' data]. apply perm_skip, perm_swap.
  - rewrite E, E'. intros H. apply float_one_is_not_zero.
    exact (f_equal (fun r => match r with
                             | Ok t => nth 0 (data t) 0%float
                             | Raise _ => 0%float
                             end) H).
Qed.

(** ** The warning of the recurrent mode, as the caller sees it *)

Lemma seen_true (w : warning) (l : list warning) :
  In w l -> warnings.seen w l = true.
Proof.
  intros H. unfold warnings.seen. now destruct (in_dec warning_eq_dec w l).
Qed.

Section RecurrentModeWarning.
Context {A : Type} {SA : Scalar A}.

(** Once the warning is registered, a call shows nothing. *)
Lemma calls_after_first (V : nat) (w : list A) (instructions : list (tensor Z)) :
  forall (st : warnings.state) (i : nat) (x : tensor Z),
    In (UserWarning InstructionEncoder.not_implemented) (warnings.registry st) ->
    nth_error instructions i = Some x ->
    nth_error (Session.calls st (InstructionEncoder.init V false w) instructions) i
    = Some ([], Finished (snd (InstructionEncoder.forward
                                 (InstructionEncoder.init V false w) x))).
Proof.
  induction instructions as [|y rest IH]; intros st i x Hreg Hi.
  - destruct i; discriminate Hi.
  - cbn [Session.calls]. unfold Session.call, InstructionEncoder.forward.
    cbn [InstructionEncoder.bow InstructionEncoder.init negb warnings_warn].
    unfold warnings.warn. rewrite (seen_true _ _ Hreg).
    destruct i as [|i]; cbn [nth_error] in *.
    + now injection Hi as ->.
    + now apply IH.
Qed.

(** C8, amended: in a fresh interpreter with Python's own filters, an
    encoder constructed with [bow] false shows the "not yet implemented"
    warning on its first call of [forward] and on no later call; every
    call, the first one included, then returns (or raises) what the bag of
    words does. *)
Theorem recurrent_mode_warns_once (V : nat) (w : list A)
  (instructions : list (tensor Z)) (i : nat) (x : tensor Z) :
  nth_error instructions i = Some x ->
  nth_error (Session.calls warnings.initial (InstructionEncoder.init V false w)
                           instructions) i
  = Some (if i =? 0 then [UserWarning InstructionEncoder.not_implemented] else [],
          Finished (snd (InstructionEncoder.forward
                           (InstructionEncoder.init V true w) x))).
Proof.
  intros Hi. destruct instructions as [|y rest]; [destruct i; discriminate Hi|].
  cbn [Session.calls]. unfold Session.call at 1, InstructionEncoder.forward at 1.
  cbn [InstructionEncoder.bow InstructionEncoder.init negb warnings_warn].
  unfold warnings.warn, warnings.initial. cbn [warnings.registry warnings.action_of].
  change (warnings.seen (UserWarning InstructionEncoder.not_implemented) [])
    with false.
  cbv beta iota.
  destruct i as [|i]; cbn [nth_error Nat.eqb] in *.
  - now injection Hi as ->.
  - rewrite (calls_after_first V w rest _ i x); [reflexivity | now left | assumption].
Qed.

End RecurrentModeWarning.

Lemma recurrent_mode_warns_once_witness :
  let w := map Z.of_nat (seq 0 (3 * 128)) in
  let x := Tensor [1; 2] [0; 1]%Z in
  let y := Tensor [1; 1] [2]%Z in
  nth_error (Session.calls warnings.initial (InstructionEncoder.init 3 false w)
                           [x; y; x]) 2
  = Some (if 2 =? 0 then [UserWarning InstructionEncoder.not_implemented] else [],
          Finished (snd (InstructionEncoder.forward
                           (InstructionEncoder.init 3 true w) x))).
Proof.
  intros w x y.
  apply (recurrent_mode_warns_once 3 w [x; y; x] 2 x).
  reflexivity.
Defined.

(** C8, the claim as stated fails: the second call of [forward] on an
    encoder with [bow] false returns bag-of-words output and shows no
    warning. *)
Lemma second_call_is_silent :
  let enc := InstructionEncoder.init 3 false (map Z.of_nat (seq 0 (3 * 128))) in
  let x := Tensor [1; 2] [0; 1]%Z in
  exists out,
    nth_error (Session.calls warnings.initial enc [x; x]) 1
    = Some ([], Finished (Ok out))
    /\ shape out = [1; 128].
Proof.
  intros enc x. eexists. split.
  - vm_compute. reflexivity.
  - reflexivity.
Qed.

(** ** TimeEncoder: the state of every call *)

(** The recurrence does read the state it is started from: with all
    parameters zero, a cell state of one instead of zero changes the hidden
    state that one step returns. *)
Lemma LSTMCell_reads_state :
  let cell := LSTM.init 1 1 true [0; 0; 0; 0]%R [0; 0; 0; 0]%R
                        [0; 0; 0; 0]%R [0; 0; 0; 0]%R in
  fst (LSTM.LSTMCell cell [0%R] ([0%R], [0%R]))
  <> fst (LSTM.LSTMCell cell [0%R] ([0%R], [1%R])).
Proof.
  intros cell H.
  apply (f_equal (fun l => nth 0 l 0%R)) in H.
  unfold LSTM.LSTMCell, cell, linear_row, dot, vadd, vmul, slice in H.
  cbn -[exp tanh Rplus Rmult Rdiv Rinv Ropp] in H.
  set (z := (0 + 0 * 0 + 0 + (0 + 0 * 0 + 0))%R) in H.
  assert (Hz : z = 0%R) by (unfold z; lra).
  rewrite Hz in H. clear Hz z.
  assert (Ht0 : tanh 0 = 0%R).
  { unfold tanh. rewrite sinh_0, cosh_0. lra. }
  rewrite Ht0 in H.
  set (s := (1 / (1 + exp (- 0)))%R) in H.
  assert (Hs : s = (1 / 2)%R).
  { unfold s. rewrite Ropp_0, exp_0. lra. }
  rewrite Hs in H.
  replace (1 / 2 * 0 + 1 / 2 * 0)%R with 0%R in H by lra.
  replace (1 / 2 * 1 + 1 / 2 * 0)%R with (1 / 2)%R in H by lra.
  rewrite Ht0 in H.
  assert (Hpos : (0 < tanh (1 / 2))%R).
  { unfold tanh. apply Rdiv_lt_0_compat.
    - unfold sinh. assert (exp (- (1 / 2)) < exp (1 / 2))%R
        by (apply exp_increasing; lra). lra.
    - unfold cosh. pose proof (exp_pos (1 / 2)). pose proof (exp_pos (- (1 / 2))).
      lra. }
  nra.
Qed.

Section TimeEncoderSequence.
Context {A : Type} {SA : Scalar A} {AA : Activation A}.
Variables w_ih w_hh b_ih b_hh : list A.

Local Notation "'enc'" := (TimeEncoder.init w_ih w_hh b_ih b_hh) (only parsing).


End TimeEncoderSequence.

